(** * hacken-market-coins: the [App] component of the coin market viewer

    A shallow embedding of [App.tsx], in its revision with the search box
    (module [App]) and in its earlier revision without it (module [Legacy]:
    the same handlers for currency, sort order and page, the same
    [fetchCoins] but for the [ids] parameter, and the same percentage
    column), followed by the properties of its query state, its fetch
    lifecycle, its lookups in the coin list, its columns, and the relation
    between the two revisions.

    Conventions of the embedding.
    - A JavaScript string is a [string]; its characters stand for code units
      in the Latin-1 range.  [String.prototype.toLowerCase] belongs to the
      runtime, not to the component: it is a member of the class
      [JS.Runtime], so every result holds for any case mapping.
    - A JavaScript number that counts pages is a [Z]; a number that comes
      from the network is a [JS.number] (an exact rational, an infinity or
      NaN).
    - React state is the record [App.State]; a handler is a function from the
      rendered state to the next one (the updates of one handler are applied
      together, before the next render); [useEffect] with a dependency array
      is [App.useEffect], which compares the arrays of two consecutive
      renders.
    - The network is explicit: [App.System] keeps the descriptors handed to
      [axios.get], in the order of the calls, and the calls not yet settled;
      settling a call is an event of its own. *)

From Stdlib Require Import List String Ascii Bool ZArith QArith Qabs Lia.
From Stdlib Require Import Numbers.DecimalString.
Import ListNotations.

Open Scope string_scope.
Open Scope list_scope.

(* ================================================================== *)
(** ** The JavaScript runtime, as far as the component uses it *)

Module JS.

(** [a ?? b]. *)
Definition nullish {A : Type} (a : option A) (b : A) : A :=
  match a with
  | Some v => v
  | None => b
  end.

(** Truthiness of a string: every string but the empty one. *)
Definition truthy (s : string) : bool :=
  match s with
  | EmptyString => false
  | String _ _ => true
  end.

(** Truthiness of a [string | null]. *)
Definition truthy_opt (s : option string) : bool :=
  match s with
  | Some v => truthy v
  | None => false
  end.

(** [WhiteSpace] and [LineTerminator] code units below 256:
    TAB, LF, VT, FF, CR, SP and NBSP. *)
Definition isWhiteSpace (c : ascii) : bool :=
  let n := nat_of_ascii c in
  ((9 <=? n) && (n <=? 13) || (n =? 32) || (n =? 160))%nat.

Fixpoint trimStart (s : string) : string :=
  match s with
  | EmptyString => EmptyString
  | String c rest => if isWhiteSpace c then trimStart rest else s
  end.

(** [trimEnd], by structural recursion: a white-space character is dropped
    when all that follows it is dropped too. *)
Fixpoint trimEnd (s : string) : string :=
  match s with
  | EmptyString => EmptyString
  | String c rest =>
      match trimEnd rest with
      | EmptyString => if isWhiteSpace c then EmptyString else String c EmptyString
      | kept => String c kept
      end
  end.

(** [s.trim()]. *)
Definition trim (s : string) : string := trimEnd (trimStart s).

(** [s.startsWith(p)]. *)
Fixpoint startsWith (s p : string) {struct p} : bool :=
  match p with
  | EmptyString => true
  | String c p' =>
      match s with
      | EmptyString => false
      | String d s' => Ascii.eqb d c && startsWith s' p'
      end
  end.

(** [xs.find(f)]. *)
Fixpoint find {A : Type} (f : A -> bool) (xs : list A) : option A :=
  match xs with
  | [] => None
  | x :: rest => if f x then Some x else find f rest
  end.

(** *** Numbers *)

(** A number value: NaN, an infinity with its sign ([true] is negative),
    or a finite value, kept as the exact rational it denotes. *)
Inductive number : Type :=
| NaN
| Infinity (negative : bool)
| Finite (q : Q).

(** A property of a JSON record read as a number: the key may be missing
    (the read gives [undefined]), hold [null], or hold a number. *)
Inductive field : Type :=
| Missing
| Null
| Num (x : number).

(** [ToNumber]: [undefined] is NaN, [null] is +0. *)
Definition ToNumber (v : field) : number :=
  match v with
  | Missing => NaN
  | Null => Finite 0
  | Num x => x
  end.

(** [v >= 0]: both sides through [ToNumber]; any comparison with NaN is
    false. *)
Definition ge0 (v : field) : bool :=
  match ToNumber v with
  | NaN => false
  | Infinity negative => negb negative
  | Finite q => Qle_bool 0 q
  end.

(** [Math.abs(v)]. *)
Definition Math_abs (v : field) : number :=
  match ToNumber v with
  | NaN => NaN
  | Infinity _ => Infinity false
  | Finite q => Finite (Qabs q)
  end.

Definition digits (n : Z) : string :=
  NilEmpty.string_of_uint (N.to_uint (Z.to_N n)).

(** Two decimals of a rational [0 <= q < 10^21]: the integer [n] with
    [n / 100] nearest to [q], the larger one on a tie, printed with at
    least one digit before the point. *)
Definition fixed2 (q : Q) : string :=
  let n := ((200 * Qnum q + Zpos (Qden q)) / (2 * Zpos (Qden q)))%Z in
  let frac := (n mod 100)%Z in
  digits (n / 100)%Z ++ "." ++ (if (frac <? 10)%Z then "0" else "") ++ digits frac.

(** What the component takes from the runtime without defining it. *)
Class Runtime : Type := {
  (** [String.prototype.toLowerCase]. *)
  toLowerCase : string -> string;
  (** [Number.prototype.toString] on the finite values of magnitude
      [10^21] and more, where [toFixed] defers to it. *)
  NumberToString : Q -> string
}.

(** [x.toFixed(2)]. *)
Definition toFixed2 `{Runtime} (x : number) : string :=
  match x with
  | NaN => "NaN"
  | Infinity negative => if negative then "-Infinity" else "Infinity"
  | Finite q =>
      if Qle_bool (10 ^ 21) (Qabs q) then NumberToString q
      else (if Qle_bool 0 q then "" else "-") ++ fixed2 (Qabs q)
  end.

(** A runtime to evaluate examples with: the case mapping of the Latin-1
    code units (A-Z and the accented capitals but the multiplication sign
    move up by 32), and a placeholder for the exponent notation. *)
Definition lower_unit (c : ascii) : ascii :=
  let n := nat_of_ascii c in
  if ((65 <=? n) && (n <=? 90) || (192 <=? n) && (n <=? 222) && negb (n =? 215))%nat
  then ascii_of_nat (n + 32)
  else c.

Fixpoint lower (s : string) : string :=
  match s with
  | EmptyString => EmptyString
  | String c rest => String (lower_unit c) (lower rest)
  end.

Definition latin1 : Runtime :=
  {| toLowerCase := lower; NumberToString := fun _ => "1e+21" |}.

End JS.

(* ================================================================== *)
(** ** The data of the component *)

(** [interface Coin]: a row of the markets response.  The numeric
    properties are read from JSON, so each is a [JS.field]. *)
Module Coin.
Record t : Type := mk {
  name : string;
  current_price : JS.field;
  circulating_supply : JS.field;
  image : string;
  price_change_24h : JS.field;
  price_change_percentage_24h : JS.field
}.
End Coin.

(** [interface AllCoins]: an entry of the bulk coin list. *)
Module AllCoins.
Record t : Type := mk {
  id : string;
  symbol : string;
  name : string
}.
End AllCoins.

Module App.
Import JS.

(** The eleven [useState] cells, with the names the source gives them. *)
Record State : Type := mkState {
  coins : list Coin.t;
  currency : string;
  sortOrder : string;
  perPage : Z;
  currentPage : Z;
  loading : bool;
  error : option string;
  searchInput : string;
  searchString : string;
  allCoins : list AllCoins.t;
  filteredOptions : list AllCoins.t
}.

(** The initial values passed to [useState]. *)
Definition initial : State :=
  {| coins := [];
     currency := "USD";
     sortOrder := "market_cap_desc";
     perPage := 10;
     currentPage := 1;
     loading := false;
     error := None;
     searchInput := "";
     searchString := "";
     allCoins := [];
     filteredOptions := [] |}.

(** The state setters: each replaces one cell. *)
Definition setCoins (v : list Coin.t) (st : State) : State :=
  mkState v (currency st) (sortOrder st) (perPage st) (currentPage st)
    (loading st) (error st) (searchInput st) (searchString st) (allCoins st)
    (filteredOptions st).

Definition setCurrency (v : string) (st : State) : State :=
  mkState (coins st) v (sortOrder st) (perPage st) (currentPage st)
    (loading st) (error st) (searchInput st) (searchString st) (allCoins st)
    (filteredOptions st).

Definition setSortOrder (v : string) (st : State) : State :=
  mkState (coins st) (currency st) v (perPage st) (currentPage st)
    (loading st) (error st) (searchInput st) (searchString st) (allCoins st)
    (filteredOptions st).

Definition setPerPage (v : Z) (st : State) : State :=
  mkState (coins st) (currency st) (sortOrder st) v (currentPage st)
    (loading st) (error st) (searchInput st) (searchString st) (allCoins st)
    (filteredOptions st).

Definition setCurrentPage (v : Z) (st : State) : State :=
  mkState (coins st) (currency st) (sortOrder st) (perPage st) v
    (loading st) (error st) (searchInput st) (searchString st) (allCoins st)
    (filteredOptions st).

Definition setLoading (v : bool) (st : State) : State :=
  mkState (coins st) (currency st) (sortOrder st) (perPage st) (currentPage st)
    v (error st) (searchInput st) (searchString st) (allCoins st)
    (filteredOptions st).

Definition setError (v : option string) (st : State) : State :=
  mkState (coins st) (currency st) (sortOrder st) (perPage st) (currentPage st)
    (loading st) v (searchInput st) (searchString st) (allCoins st)
    (filteredOptions st).

Definition setSearchInput (v : string) (st : State) : State :=
  mkState (coins st) (currency st) (sortOrder st) (perPage st) (currentPage st)
    (loading st) (error st) v (searchString st) (allCoins st)
    (filteredOptions st).

Definition setSearchString (v : string) (st : State) : State :=
  mkState (coins st) (currency st) (sortOrder st) (perPage st) (currentPage st)
    (loading st) (error st) (searchInput st) v (allCoins st)
    (filteredOptions st).

Definition setAllCoins (v : list AllCoins.t) (st : State) : State :=
  mkState (coins st) (currency st) (sortOrder st) (perPage st) (currentPage st)
    (loading st) (error st) (searchInput st) (searchString st) v
    (filteredOptions st).

Definition setFilteredOptions (v : list AllCoins.t) (st : State) : State :=
  mkState (coins st) (currency st) (sortOrder st) (perPage st) (currentPage st)
    (loading st) (error st) (searchInput st) (searchString st) (allCoins st)
    v.

(* ------------------------------------------------------------------ *)
(** *** The query descriptor *)

(** A value of the [params] object literal. *)
Inductive ParamValue : Type :=
| PString (s : string)
| PNumber (n : Z)
| PBoolean (b : bool).

(** The [params] object: its keys in the order of the literal. *)
Definition Params : Type := list (string * ParamValue).

(** Reading a key of the object: [None] when the object has no such key. *)
Fixpoint param (key : string) (ps : Params) : option ParamValue :=
  match ps with
  | [] => None
  | (k, v) :: rest => if k =? key then Some v else param key rest
  end.

(** The [params] literal of [fetchCoins], over the values the effect closes
    over. *)
Definition params (st : State) : Params :=
  [ ("vs_currency", PString (currency st));
    ("order", PString (sortOrder st));
    ("per_page", PNumber (perPage st));
    ("page", PNumber (currentPage st));
    ("sparkline", PBoolean false);
    ("ids", PString (searchString st)) ].

(** The dependency array of the effect,
    [[currency, perPage, sortOrder, currentPage, searchString]]. *)
Definition deps (st : State) : string * Z * string * Z * string :=
  (currency st, perPage st, sortOrder st, currentPage st, searchString st).

(** Two dependency arrays compared item by item, as React does between two
    renders. *)
Definition same_deps (a b : State) : bool :=
  (currency a =? currency b) && (perPage a =? perPage b)%Z
  && (sortOrder a =? sortOrder b) && (currentPage a =? currentPage b)%Z
  && (searchString a =? searchString b).

(* ------------------------------------------------------------------ *)
(** *** The handlers *)

Definition handleCurrencyChange (value : string) (st : State) : State :=
  setCurrency value st.

Definition handleSortOrderChange (value : string) (st : State) : State :=
  setSortOrder
    (if value =? "market_cap_desc" then "market_cap_desc" else "market_cap_asc")
    st.

(** The two properties of [TablePaginationConfig] the handler reads; both are
    optional. *)
Record TablePaginationConfig : Type := mkPagination {
  current : option Z;
  pageSize : option Z
}.

Definition handleTableChange (pagination : TablePaginationConfig) (st : State)
  : State :=
  let page := nullish (current pagination) (currentPage st) in
  let size := nullish (pageSize pagination) (perPage st) in
  setPerPage size (setCurrentPage page st).

Definition handleSearch `{Runtime} (st : State) : State :=
  let selectedCoin :=
    find (fun coin =>
            toLowerCase (AllCoins.name coin) =? toLowerCase (searchInput st))
         (allCoins st) in
  setSearchString
    (match selectedCoin with
     | Some coin => AllCoins.id coin
     | None => ""
     end)
    st.

Definition handleClearSearch (st : State) : State :=
  setFilteredOptions [] (setSearchString "" (setSearchInput "" st)).

Definition handleInputChange `{Runtime} (value : string) (st : State) : State :=
  let st1 := setSearchInput value st in
  if truthy (trim value) then
    let filtered :=
      filter (fun coin =>
                startsWith (toLowerCase (AllCoins.name coin)) (toLowerCase value))
             (allCoins st) in
    setFilteredOptions filtered st1
  else
    setFilteredOptions [] st1.

(* ------------------------------------------------------------------ *)
(** *** The two fetches *)

(** [fetchCoins] after its [await]: the [try] branch followed by [finally]. *)
Definition fetchCoins_fulfilled (data : list Coin.t) (st : State) : State :=
  setLoading false (setError None (setCoins data st)).

Definition fetch_error_message : string :=
  "Failed to fetch data. Wait a moment and please try again.".

(** [fetchCoins] after its [await]: the [catch] branch followed by
    [finally]. *)
Definition fetchCoins_rejected (st : State) : State :=
  setLoading false (setError (Some fetch_error_message) st).

(** [fetchAllCoins] after its [await]. *)
Definition fetchAllCoins_fulfilled (data : list AllCoins.t) (st : State) : State :=
  setAllCoins data st.

(* ------------------------------------------------------------------ *)
(** *** What is rendered *)

(** [dataSource] of the table. *)
Definition dataSource (st : State) : list Coin.t := coins st.

(** [{coins.length < 1 && error && <div>{error}</div>}]: the message on
    screen, if any. *)
Definition error_message (st : State) : option string :=
  if (List.length (coins st) <? 1)%nat then
    match error st with
    | Some e => if truthy e then Some e else None
    | None => None
    end
  else None.

Inductive Arrow : Type := Up | Down.

(** What the render of the percentage column puts in its [span]. *)
Record PercentCell : Type := mkCell {
  arrowColor : string;
  arrowIcon : Arrow;
  percent : string
}.

(** [render] of the column [price_change_percentage_24h]; the same in both
    revisions. *)
Definition render_price_change_percentage_24h `{Runtime} (record : Coin.t)
  : PercentCell :=
  let v := Coin.price_change_percentage_24h record in
  {| arrowColor := if ge0 v then "green" else "red";
     arrowIcon := if ge0 v then Up else Down;
     percent := toFixed2 (Math_abs v) |}.

(** [pageSizeOptions] and [total] of the pagination. *)
Definition pageSizeOptions : list Z := [5; 10; 20; 50; 100]%Z.
Definition total : Z := 10000.

(* ------------------------------------------------------------------ *)
(** *** The component and the network *)

(** The component between two events.  A call of [axios.get] on the markets
    endpoint is known by its position in [issued]. *)
Record System : Type := mkSystem {
  state : State;
  (** the [params] of every markets call so far, oldest first *)
  issued : list Params;
  (** the markets calls whose promise has not settled *)
  pending : list nat;
  (** whether the call on the coin list has not settled *)
  catalog_pending : bool
}.

Definition with_state (st : State) (sys : System) : System :=
  mkSystem st (issued sys) (pending sys) (catalog_pending sys).

(** [fetchCoins()] up to its [await]: [setLoading(true)], then the call with
    the values of the render the effect belongs to. *)
Definition fetchCoins (sys : System) : System :=
  mkSystem (setLoading true (state sys))
           (issued sys ++ [params (state sys)])
           (pending sys ++ [List.length (issued sys)])
           (catalog_pending sys).

(** The second [useEffect], after a render that follows the render of
    [prev]: the effect runs when an item of the dependency array changed. *)
Definition useEffect (prev : State) (sys : System) : System :=
  if same_deps prev (state sys) then sys else fetchCoins sys.

(** The first render: both effects run, [fetchAllCoins] and [fetchCoins]. *)
Definition mount : System :=
  fetchCoins (mkSystem initial [] [] true).

(** What the user can do. *)
Inductive Action : Type :=
| CurrencyChange (value : string)
| SortOrderChange (value : string)
| TableChange (pagination : TablePaginationConfig)
| Search
| ClearSearch
| InputChange (value : string).

Definition handle `{Runtime} (a : Action) (st : State) : State :=
  match a with
  | CurrencyChange value => handleCurrencyChange value st
  | SortOrderChange value => handleSortOrderChange value st
  | TableChange pagination => handleTableChange pagination st
  | Search => handleSearch st
  | ClearSearch => handleClearSearch st
  | InputChange value => handleInputChange value st
  end.

(** A handler runs, the component renders again, the effect is considered. *)
Definition act `{Runtime} (a : Action) (sys : System) : System :=
  useEffect (state sys) (with_state (handle a (state sys)) sys).

(** How a markets call ends. *)
Inductive Outcome : Type :=
| Fulfilled (data : list Coin.t)
| Rejected.

Definition fetchCoins_settled (o : Outcome) (st : State) : State :=
  match o with
  | Fulfilled data => fetchCoins_fulfilled data st
  | Rejected => fetchCoins_rejected st
  end.

(** What the network can do. *)
Inductive Settlement : Type :=
| CoinsSettled (k : nat) (o : Outcome)
| AllCoinsFulfilled (data : list AllCoins.t)
| AllCoinsRejected.

Definition mem (k : nat) (ks : list nat) : bool := existsb (Nat.eqb k) ks.

(** A promise settles and the rest of its [async] function runs; [None]
    when no such call is pending.  A rejection of the coin list is caught by
    nobody and changes nothing. *)
Definition settle (s : Settlement) (sys : System) : option System :=
  match s with
  | CoinsSettled k o =>
      if mem k (pending sys) then
        Some (useEffect (state sys)
                (mkSystem (fetchCoins_settled o (state sys))
                          (issued sys)
                          (List.remove Nat.eq_dec k (pending sys))
                          (catalog_pending sys)))
      else None
  | AllCoinsFulfilled data =>
      if catalog_pending sys then
        Some (useEffect (state sys)
                (mkSystem (fetchAllCoins_fulfilled data (state sys))
                          (issued sys) (pending sys) false))
      else None
  | AllCoinsRejected =>
      if catalog_pending sys then
        Some (mkSystem (state sys) (issued sys) (pending sys) false)
      else None
  end.

Inductive Event : Type :=
| User (a : Action)
| Network (s : Settlement).

Definition step `{Runtime} (e : Event) (sys : System) : option System :=
  match e with
  | User a => Some (act a sys)
  | Network s => settle s sys
  end.

Fixpoint run `{Runtime} (es : list Event) (sys : System) : option System :=
  match es with
  | [] => Some sys
  | e :: rest =>
      match step e sys with
      | Some sys' => run rest sys'
      | None => None
      end
  end.

(** The systems the component can be in. *)
Inductive reachable `{Runtime} : System -> Prop :=
| reachable_mount : reachable mount
| reachable_step : forall e sys sys',
    reachable sys -> step e sys = Some sys' -> reachable sys'.

(** The request lifecycle on screen: the rows, the error, the spinner. *)
Definition visible (sys : System) : list Coin.t * option string * bool :=
  (coins (state sys), error (state sys), loading (state sys)).

(** The descriptor of the markets call made last. *)
Definition latest (sys : System) : option Params :=
  List.last (List.map Some (issued sys)) None.

(** The values of the sort-order select. *)
Definition sort_orders : list string := ["market_cap_desc"; "market_cap_asc"].

(** The values of the currency select. *)
Definition currencies : list string := ["USD"; "EUR"].

(** A string of white space only (the empty string is one). *)
Fixpoint blank (s : string) : bool :=
  match s with
  | EmptyString => true
  | String c rest => isWhiteSpace c && blank rest
  end.

End App.

Import JS App.

(* ================================================================== *)
(** ** Vocabulary of the statements, and data for the examples *)

(** A descriptor built by [params] from a state whose sort order is one of
    the two values of the select. *)
Definition well_formed (d : Params) : Prop :=
  exists st, d = params st /\ In (sortOrder st) sort_orders.

(** What holds of every system the component can be in. *)
Definition invariant (sys : System) : Prop :=
  In (sortOrder (state sys)) sort_orders
  /\ latest sys = Some (params (state sys))
  /\ Forall well_formed (issued sys).

(** The entry [c] of the coin list has the display name [typed], up to
    case. *)
Definition same_name `{Runtime} (typed : string) (c : AllCoins.t) : Prop :=
  toLowerCase (AllCoins.name c) = toLowerCase typed.

(** The display name of [c] starts with [typed], up to case. *)
Definition name_starts_with `{Runtime} (typed : string) (c : AllCoins.t) : Prop :=
  exists rest, toLowerCase (AllCoins.name c) = (toLowerCase typed ++ rest)%string.

Definition row (name : string) (change : field) : Coin.t :=
  Coin.mk name (Num (Finite 1)) (Num (Finite 1)) "" (Num (Finite 0)) change.

Definition usd_rows : list Coin.t := [row "Bitcoin" (Num (Finite (3 # 2)))].
Definition eur_rows : list Coin.t := [row "Ethereum" (Num (Finite (-(1 # 4))))].

Definition catalog : list AllCoins.t :=
  [ AllCoins.mk "bitcoin" "btc" "Bitcoin";
    AllCoins.mk "ethereum" "eth" "Ethereum";
    AllCoins.mk "bitcoin-cash" "bch" "Bitcoin Cash" ].

(** The user picks EUR while the first call, made for USD, is in flight. *)
Definition two_in_flight : System :=
  act (H := latin1) (CurrencyChange "EUR") mount.

(** The call for EUR has answered; the call for USD has not. *)
Definition newer_answered : System :=
  mkSystem (fetchCoins_fulfilled eur_rows (state two_in_flight))
           (issued two_in_flight) [0%nat] true.

(** The first call has answered with rows; the user then picks EUR, and
    the call for EUR is in flight over the rows on screen. *)
Definition rows_held : System :=
  act (H := latin1) (CurrencyChange "EUR")
    (mkSystem (fetchCoins_fulfilled usd_rows (state mount)) (issued mount) [] true).

(** A loaded coin list, and a list with an entry whose name starts with a
    space. *)
Definition loaded : State := setAllCoins catalog initial.
Definition spaced : State := setAllCoins [AllCoins.mk "x" "x" " x"] initial.

(* ================================================================== *)
(** ** More of the component: what else is rendered *)

(** [options] of the [AutoComplete]:
    [filteredOptions.map((coin) => ({ value: coin.name }))], each option
    known by its [value]. *)
Definition options (st : State) : list string :=
  map (fun coin => AllCoins.name coin) (filteredOptions st).

(** The coin list has arrived during the first markets call; the user then
    types [bit]. *)
Definition catalog_loaded : System :=
  mkSystem (setAllCoins catalog (state mount)) (issued mount) (pending mount) false.

Definition suggesting : System :=
  act (H := latin1) (InputChange "bit") catalog_loaded.

(** The keys of a descriptor, in the order of the object literal. *)
Definition keys (d : Params) : list string := map fst d.

(* ------------------------------------------------------------------ *)
(** *** The price and supply columns *)

(** What a render can throw. *)
Inductive Thrown : Type := TypeError | RangeError.

(** The formatting of [Intl.NumberFormat] for [en-US], taken from the
    runtime: with [style: 'currency'] and a currency code, and plain. *)
Class Locale : Type := {
  currencyFormat : number -> string -> string;
  numberFormat : number -> string
}.

Definition isAsciiLetter (c : ascii) : bool :=
  let n := nat_of_ascii c in
  ((65 <=? n) && (n <=? 90) || (97 <=? n) && (n <=? 122))%nat.

(** [IsWellFormedCurrencyCode]: three ASCII letters. *)
Definition isWellFormedCurrencyCode (code : string) : bool :=
  match code with
  | String a (String b (String c EmptyString)) =>
      isAsciiLetter a && isAsciiLetter b && isAsciiLetter c
  | _ => false
  end.

(** [formatCurrency]: [value.toLocaleString('en-US', { style: 'currency',
    currency })].  Reading [toLocaleString] off [undefined] or [null] throws
    a [TypeError]; on a number, a currency code that is not well formed
    throws a [RangeError]. *)
Definition formatCurrency `{Locale} (value : field) (currency : string)
  : Thrown + string :=
  match value with
  | Missing | Null => inl TypeError
  | Num x =>
      if isWellFormedCurrencyCode currency then inr (currencyFormat x currency)
      else inl RangeError
  end.

(** [render] of the column [current_price], in a render of the state [st]. *)
Definition render_current_price `{Locale} (st : State) (record : Coin.t)
  : Thrown + string :=
  formatCurrency (Coin.current_price record) (currency st).

(** [render] of the column [circulating_supply]:
    [supply.toLocaleString('en-US')]. *)
Definition render_circulating_supply `{Locale} (record : Coin.t)
  : Thrown + string :=
  match Coin.circulating_supply record with
  | Missing | Null => inl TypeError
  | Num x => inr (numberFormat x)
  end.

(** A locale to evaluate examples with. *)
Definition plain_locale : Locale :=
  {| currencyFormat := fun _ code => code; numberFormat := fun _ => "1" |}.

(* ================================================================== *)
(** ** The earlier revision of the component, without the search box *)

Module Legacy.

(** The seven [useState] cells of the earlier [App.tsx]. *)
Record State : Type := mkState {
  coins : list Coin.t;
  currency : string;
  sortOrder : string;
  perPage : Z;
  currentPage : Z;
  loading : bool;
  error : option string
}.

Definition initial : State :=
  {| coins := [];
     currency := "USD";
     sortOrder := "market_cap_desc";
     perPage := 10;
     currentPage := 1;
     loading := false;
     error := None |}.

Definition setCoins (v : list Coin.t) (st : State) : State :=
  mkState v (currency st) (sortOrder st) (perPage st) (currentPage st)
    (loading st) (error st).

Definition setCurrency (v : string) (st : State) : State :=
  mkState (coins st) v (sortOrder st) (perPage st) (currentPage st)
    (loading st) (error st).

Definition setSortOrder (v : string) (st : State) : State :=
  mkState (coins st) (currency st) v (perPage st) (currentPage st)
    (loading st) (error st).

Definition setPerPage (v : Z) (st : State) : State :=
  mkState (coins st) (currency st) (sortOrder st) v (currentPage st)
    (loading st) (error st).

Definition setCurrentPage (v : Z) (st : State) : State :=
  mkState (coins st) (currency st) (sortOrder st) (perPage st) v
    (loading st) (error st).

Definition setLoading (v : bool) (st : State) : State :=
  mkState (coins st) (currency st) (sortOrder st) (perPage st) (currentPage st)
    v (error st).

Definition setError (v : option string) (st : State) : State :=
  mkState (coins st) (currency st) (sortOrder st) (perPage st) (currentPage st)
    (loading st) v.

(** The [params] literal of the earlier [fetchCoins]: no [ids]. *)
Definition params (st : State) : Params :=
  [ ("vs_currency", PString (currency st));
    ("order", PString (sortOrder st));
    ("per_page", PNumber (perPage st));
    ("page", PNumber (currentPage st));
    ("sparkline", PBoolean false) ].

(** The dependency array [[currency, perPage, sortOrder, currentPage]],
    compared between two renders. *)
Definition same_deps (a b : State) : bool :=
  (currency a =? currency b) && (perPage a =? perPage b)%Z
  && (sortOrder a =? sortOrder b) && (currentPage a =? currentPage b)%Z.

Definition handleCurrencyChange (value : string) (st : State) : State :=
  setCurrency value st.

Definition handleSortOrderChange (value : string) (st : State) : State :=
  setSortOrder
    (if value =? "market_cap_desc" then "market_cap_desc" else "market_cap_asc")
    st.

Definition handleTableChange (pagination : TablePaginationConfig) (st : State)
  : State :=
  let page := nullish (current pagination) (currentPage st) in
  let size := nullish (pageSize pagination) (perPage st) in
  setPerPage size (setCurrentPage page st).

Definition fetchCoins_settled (o : Outcome) (st : State) : State :=
  match o with
  | Fulfilled data => setLoading false (setError None (setCoins data st))
  | Rejected => setLoading false (setError (Some fetch_error_message) st)
  end.

Record System : Type := mkSystem {
  state : State;
  issued : list Params;
  pending : list nat
}.

Definition fetchCoins (sys : System) : System :=
  mkSystem (setLoading true (state sys))
           (issued sys ++ [params (state sys)])
           (pending sys ++ [List.length (issued sys)]).

Definition useEffect (prev : State) (sys : System) : System :=
  if same_deps prev (state sys) then sys else fetchCoins sys.

Definition mount : System := fetchCoins (mkSystem initial [] []).

(** What the user can do, and how a markets call ends. *)
Inductive Event : Type :=
| CurrencyChange (value : string)
| SortOrderChange (value : string)
| TableChange (pagination : TablePaginationConfig)
| CoinsSettled (k : nat) (o : Outcome).

Definition step (e : Event) (sys : System) : option System :=
  match e with
  | CurrencyChange value =>
      Some (useEffect (state sys)
              (mkSystem (handleCurrencyChange value (state sys))
                        (issued sys) (pending sys)))
  | SortOrderChange value =>
      Some (useEffect (state sys)
              (mkSystem (handleSortOrderChange value (state sys))
                        (issued sys) (pending sys)))
  | TableChange pagination =>
      Some (useEffect (state sys)
              (mkSystem (handleTableChange pagination (state sys))
                        (issued sys) (pending sys)))
  | CoinsSettled k o =>
      if mem k (pending sys) then
        Some (useEffect (state sys)
                (mkSystem (fetchCoins_settled o (state sys))
                          (issued sys)
                          (List.remove Nat.eq_dec k (pending sys))))
      else None
  end.

Fixpoint run (es : list Event) (sys : System) : option System :=
  match es with
  | [] => Some sys
  | e :: rest =>
      match step e sys with
      | Some sys' => run rest sys'
      | None => None
      end
  end.

End Legacy.

(** The same event, on the component with the search box. *)
Definition later (e : Legacy.Event) : Event :=
  match e with
  | Legacy.CurrencyChange value => User (CurrencyChange value)
  | Legacy.SortOrderChange value => User (SortOrderChange value)
  | Legacy.TableChange pagination => User (TableChange pagination)
  | Legacy.CoinsSettled k o => Network (CoinsSettled k o)
  end.

(** A descriptor without its [ids]. *)
Definition without_ids (d : Params) : Params :=
  filter (fun kv => negb (fst kv =? "ids")) d.

(** What the earlier revision has of a state and of a system of the later
    one. *)
Definition earlier_state (st : State) : Legacy.State :=
  Legacy.mkState (coins st) (currency st) (sortOrder st) (perPage st)
    (currentPage st) (loading st) (error st).

Definition earlier (sys : System) : Legacy.System :=
  Legacy.mkSystem (earlier_state (state sys))
                  (map without_ids (issued sys))
                  (pending sys).

(** A property that holds a number. *)
Definition is_number (v : field) : bool :=
  match v with
  | Num _ => true
  | Missing | Null => false
  end.

(** A row whose price and supply are numbers. *)
Definition has_numbers (record : Coin.t) : bool :=
  is_number (Coin.current_price record)
  && is_number (Coin.circulating_supply record).

(** An event after which no column can throw: a currency that is a well
    formed code, rows with a price and a supply. *)
Definition quiet (e : Legacy.Event) : bool :=
  match e with
  | Legacy.CurrencyChange value => isWellFormedCurrencyCode value
  | Legacy.CoinsSettled _ (Fulfilled data) => forallb has_numbers data
  | _ => true
  end.

(** Events on the loaded coin list: typing, a search, the first markets call
    answering, Clear. *)
Definition browsing : list Event :=
  [ User (InputChange "bit"); User Search;
    Network (CoinsSettled 0 (Fulfilled usd_rows)); User ClearSearch ].

(* ================================================================== *)
(** ** Lemmas on the runtime *)

Lemma startsWith_spec (s p : string) :
  startsWith s p = true <-> exists rest, s = (p ++ rest)%string.
Proof.
  revert s; induction p as [|c p IH]; intros s; simpl.
  - split; [intros _; exists s; reflexivity | reflexivity].
  - destruct s as [|d s]; simpl.
    + split; [discriminate | intros [rest E]; discriminate E].
    + rewrite andb_true_iff, Ascii.eqb_eq, IH. split.
      * intros [-> [rest ->]]. exists rest. reflexivity.
      * intros [rest E]. injection E as -> ->. split; [reflexivity | eauto].
Qed.

Lemma trimEnd_empty (s : string) :
  trimEnd s = "" <-> blank s = true.
Proof.
  induction s as [|c s IH]; simpl.
  - tauto.
  - destruct (trimEnd s) eqn:E.
    + destruct (isWhiteSpace c); simpl.
      * rewrite <- IH. tauto.
      * split; discriminate.
    + split; [discriminate|].
      rewrite andb_true_iff. intros [_ B]. apply IH in B. discriminate B.
Qed.

Lemma blank_trimStart (s : string) :
  blank (trimStart s) = blank s.
Proof.
  induction s as [|c s IH]; simpl; [reflexivity|].
  destruct (isWhiteSpace c) eqn:E; simpl; [exact IH | rewrite E; reflexivity].
Qed.

(** [value.trim()] is falsy exactly on the strings of white space. *)
Lemma truthy_trim (s : string) :
  truthy (trim s) = negb (blank s).
Proof.
  unfold trim. rewrite <- (blank_trimStart s).
  destruct (trimEnd (trimStart s)) eqn:E; simpl.
  - apply trimEnd_empty in E. rewrite E. reflexivity.
  - destruct (blank (trimStart s)) eqn:B; [|reflexivity].
    apply trimEnd_empty in B. congruence.
Qed.

Lemma find_first {A : Type} (f : A -> bool) (xs : list A) :
  match find f xs with
  | Some x => exists before after,
      xs = before ++ x :: after /\ f x = true
      /\ forall y, In y before -> f y = false
  | None => forall y, In y xs -> f y = false
  end.
Proof.
  induction xs as [|x xs IH]; simpl.
  - intros y [].
  - destruct (f x) eqn:E.
    + exists [], xs. repeat split; [exact E | intros y []].
    + destruct (find f xs) as [z|].
      * destruct IH as (before & after & -> & Hz & Hb).
        exists (x :: before), after. repeat split; [exact Hz|].
        intros y [<- | Hy]; [exact E | exact (Hb y Hy)].
      * intros y [<- | Hy]; [exact E | exact (IH y Hy)].
Qed.

Lemma find_unique_first {A : Type} (f : A -> bool) (before after : list A) (x : A) :
  f x = true -> (forall y, In y before -> f y = false) ->
  find f (before ++ x :: after) = Some x.
Proof.
  intros Hx. induction before as [|b before IH]; intros Hb; simpl.
  - rewrite Hx. reflexivity.
  - rewrite (Hb b (or_introl eq_refl)). apply IH.
    intros y Hy. apply Hb. right. exact Hy.
Qed.

Lemma mem_In (k : nat) (ks : list nat) : mem k ks = true <-> In k ks.
Proof.
  unfold mem. rewrite existsb_exists. split.
  - intros (x & Hx & E). apply Nat.eqb_eq in E. subst. exact Hx.
  - intros Hk. exists k. split; [exact Hk | apply Nat.eqb_refl].
Qed.

(* ================================================================== *)
(** ** Lemmas on the effect and on the reachable systems *)

Lemma same_deps_true (a b : State) :
  same_deps a b = true <-> deps a = deps b.
Proof.
  unfold same_deps, deps.
  rewrite !andb_true_iff, !String.eqb_eq, !Z.eqb_eq. split.
  - intros [[[[-> ->] ->] ->] ->]. reflexivity.
  - intros E. injection E as E1 E2 E3 E4 E5. auto.
Qed.

(** The descriptor and the dependency array carry the same information. *)
Lemma params_deps (a b : State) :
  params a = params b <-> deps a = deps b.
Proof.
  unfold params, deps. split; intros E.
  - injection E as E1 E2 E3 E4 E5. congruence.
  - injection E as E1 E2 E3 E4 E5. congruence.
Qed.

Lemma same_deps_params (a b : State) :
  same_deps a b = true <-> params a = params b.
Proof. rewrite same_deps_true, params_deps. tauto. Qed.

Lemma useEffect_same (prev : State) (sys : System) :
  deps prev = deps (state sys) -> useEffect prev sys = sys.
Proof.
  intros E. unfold useEffect.
  apply same_deps_true in E. rewrite E. reflexivity.
Qed.

Lemma with_state_same (sys : System) : with_state (state sys) sys = sys.
Proof. destruct sys; reflexivity. Qed.

Lemma latest_snoc (ds : list Params) (d : Params) (sys : System) :
  issued sys = ds ++ [d] -> latest sys = Some d.
Proof.
  intros E. unfold latest. rewrite E, map_app. simpl. apply last_last.
Qed.

Lemma latest_fetchCoins (sys : System) :
  latest (fetchCoins sys) = Some (params (state sys)).
Proof. apply (latest_snoc (issued sys)). reflexivity. Qed.

(** What an effect adds to the calls made: nothing, or the descriptor of the
    state just rendered. *)
Lemma issued_useEffect (prev : State) (sys : System) :
  issued (useEffect prev sys)
  = issued sys ++ (if same_deps prev (state sys) then [] else [params (state sys)]).
Proof.
  unfold useEffect. destruct (same_deps prev (state sys)); simpl.
  - symmetry. apply app_nil_r.
  - reflexivity.
Qed.

Lemma sortOrder_handle `{Runtime} (a : Action) (st : State) :
  In (sortOrder st) sort_orders -> In (sortOrder (handle a st)) sort_orders.
Proof.
  destruct a; simpl; try (intros I; exact I).
  - intros _. destruct (value =? "market_cap_desc"); simpl; auto.
  - unfold handleInputChange. destruct (truthy (trim value)); intros I; exact I.
Qed.

Lemma invariant_useEffect (prev : State) (sys : System) :
  In (sortOrder (state sys)) sort_orders ->
  latest sys = Some (params prev) ->
  Forall well_formed (issued sys) ->
  invariant (useEffect prev sys).
Proof.
  intros I L F. unfold useEffect.
  destruct (same_deps prev (state sys)) eqn:E.
  - apply same_deps_params in E. repeat split; [exact I | congruence | exact F].
  - repeat split; [exact I | exact (latest_fetchCoins sys) |].
    simpl. apply Forall_app. split; [exact F|].
    constructor; [|constructor]. exists (state sys). split; [reflexivity | exact I].
Qed.

Lemma invariant_mount : invariant mount.
Proof.
  repeat split; simpl; auto.
  constructor; [|constructor]. exists initial. simpl. auto.
Qed.

Lemma invariant_step `{Runtime} (e : Event) (sys sys' : System) :
  invariant sys -> step e sys = Some sys' -> invariant sys'.
Proof.
  intros (I & L & F) S. destruct e as [a | [k o | data | ]]; simpl in S.
  - injection S as <-. apply invariant_useEffect; simpl.
    + apply sortOrder_handle. exact I.
    + exact L.
    + exact F.
  - destruct (mem k (pending sys)); [|discriminate S]. injection S as <-.
    apply invariant_useEffect; simpl; [destruct o; exact I | exact L | exact F].
  - destruct (catalog_pending sys); [|discriminate S]. injection S as <-.
    apply invariant_useEffect; simpl; [exact I | exact L | exact F].
  - destruct (catalog_pending sys); [|discriminate S]. injection S as <-.
    repeat split; [exact I | exact L | exact F].
Qed.

Lemma reachable_invariant `{Runtime} (sys : System) :
  reachable sys -> invariant sys.
Proof.
  induction 1 as [| e sys sys' _ IH S].
  - exact invariant_mount.
  - exact (invariant_step e sys sys' IH S).
Qed.

(** A settlement of a markets call never starts a call. *)
Lemma settle_coins (k : nat) (o : Outcome) (sys : System) :
  In k (pending sys) ->
  settle (CoinsSettled k o) sys
  = Some (mkSystem (fetchCoins_settled o (state sys)) (issued sys)
            (List.remove Nat.eq_dec k (pending sys)) (catalog_pending sys)).
Proof.
  intros P. simpl. apply mem_In in P. rewrite P. f_equal.
  apply useEffect_same. destruct o; reflexivity.
Qed.

(* ================================================================== *)
(** ** The fetch lifecycle *)

(** C1, as the claim states it, fails.  With the call for USD and the call
    for EUR both in flight, the answer for EUR arrives first and is shown;
    the answer for USD, the older call, arrives next and replaces it on
    screen, while the currency selected is still EUR.  So a settling call
    that is not the latest one does change the visible state. *)
Lemma stale_response_overwrites :
  pending two_in_flight = [0%nat; 1%nat]
  /\ currency (state two_in_flight) = "EUR"
  /\ settle (CoinsSettled 1 (Fulfilled eur_rows)) two_in_flight = Some newer_answered
  /\ visible newer_answered = (eur_rows, None, false)
  /\ (exists sys',
        settle (CoinsSettled 0 (Fulfilled usd_rows)) newer_answered = Some sys'
        /\ visible sys' = (usd_rows, None, false)
        /\ currency (state sys') = "EUR")
  /\ option_map visible
       (run (H := latin1)
          [ User (CurrencyChange "EUR");
            Network (CoinsSettled 1 (Fulfilled eur_rows));
            Network (CoinsSettled 0 (Fulfilled usd_rows)) ]
          mount)
     = Some (usd_rows, None, false)
  /\ ~ (forall (R : Runtime) (sys sys' : System) (k : nat) (o : Outcome),
          reachable sys -> In k (pending sys) ->
          (S k < List.length (issued sys))%nat ->
          settle (CoinsSettled k o) sys = Some sys' ->
          visible sys' = visible sys).
Proof.
  split; [reflexivity|]. split; [reflexivity|]. split; [reflexivity|].
  split; [reflexivity|]. split; [|split; [reflexivity|]].
  - eexists. split; [reflexivity|]. split; reflexivity.
  - intros claim.
    assert (R : @reachable latin1 newer_answered).
    { apply (@reachable_step latin1 (Network (CoinsSettled 1 (Fulfilled eur_rows)))
               two_in_flight); [|reflexivity].
      apply (@reachable_step latin1 (User (CurrencyChange "EUR")) mount);
        [apply reachable_mount | reflexivity]. }
    specialize (claim latin1 newer_answered _ 0%nat (Fulfilled usd_rows) R
                  (or_introl eq_refl) (Nat.lt_succ_diag_r 1) eq_refl).
    discriminate claim.
Qed.

(** C1, amended.  Every answer of the markets endpoint is applied to the
    visible state, whatever the order of the calls: of two pending calls,
    when the newer one settles first and the older one after it, the screen
    shows the outcome of the older one, the last to arrive.  If it succeeded,
    its rows and no error; if it failed, the error over the rows the newer
    call left; the spinner is off in both cases, and no call is made. *)
Theorem last_settlement_is_shown
  (sys : System) (older newer : nat) (o_older o_newer : Outcome) :
  In older (pending sys) -> In newer (pending sys) -> (older < newer)%nat ->
  exists sys2 sys1,
    settle (CoinsSettled newer o_newer) sys = Some sys2
    /\ settle (CoinsSettled older o_older) sys2 = Some sys1
    /\ visible sys2
       = (match o_newer with
          | Fulfilled rows => (rows, None, false)
          | Rejected => (coins (state sys), Some fetch_error_message, false)
          end)
    /\ visible sys1
       = (match o_older with
          | Fulfilled rows => (rows, None, false)
          | Rejected => (coins (state sys2), Some fetch_error_message, false)
          end)
    /\ issued sys1 = issued sys.
Proof.
  intros Po Pn Lt.
  eexists. eexists. split; [apply settle_coins; exact Pn|].
  split.
  - apply settle_coins. simpl.
    apply in_in_remove; [lia | exact Po].
  - split; [destruct o_newer; reflexivity|].
    split; [destruct o_older; reflexivity | reflexivity].
Qed.

Lemma last_settlement_is_shown_witness :
  exists sys2 sys1,
    settle (CoinsSettled 1 (Fulfilled eur_rows)) two_in_flight = Some sys2
    /\ settle (CoinsSettled 0 Rejected) sys2 = Some sys1
    /\ visible sys2 = (eur_rows, None, false)
    /\ visible sys1 = (coins (state sys2), Some fetch_error_message, false)
    /\ issued sys1 = issued two_in_flight.
Proof.
  apply (last_settlement_is_shown two_in_flight 0 1 Rejected (Fulfilled eur_rows)).
  - simpl. auto.
  - simpl. auto.
  - lia.
Defined.

(** C10.  When a markets call succeeds, the error is reset to [null] and
    the rows are replaced by the body of the response: whatever the error
    and the rows were before, no message is on screen afterwards and the
    table shows the new rows and nothing else. *)
Theorem success_replaces_rows_and_clears_error
  (sys : System) (k : nat) (data : list Coin.t) :
  In k (pending sys) ->
  exists sys',
    settle (CoinsSettled k (Fulfilled data)) sys = Some sys'
    /\ error (state sys') = None
    /\ coins (state sys') = data
    /\ dataSource (state sys') = data
    /\ error_message (state sys') = None
    /\ loading (state sys') = false.
Proof.
  intros P. eexists. split; [apply settle_coins; exact P|].
  simpl. unfold error_message, dataSource. simpl.
  repeat split. destruct (List.length data <? 1)%nat; reflexivity.
Qed.

Lemma success_replaces_rows_and_clears_error_witness :
  exists sys',
    settle (CoinsSettled 0 (Fulfilled usd_rows)) mount = Some sys'
    /\ error (state sys') = None
    /\ coins (state sys') = usd_rows
    /\ dataSource (state sys') = usd_rows
    /\ error_message (state sys') = None
    /\ loading (state sys') = false.
Proof.
  apply (success_replaces_rows_and_clears_error mount 0 usd_rows).
  simpl. auto.
Defined.

(** C4.  When a markets call fails, the error is recorded and the rows are
    left as they were, so the table keeps showing them; and the message is
    on screen only when there are no rows: here, exactly when there were
    none before the failure. *)
Theorem failure_keeps_rows
  (sys : System) (k : nat) :
  In k (pending sys) ->
  exists sys',
    settle (CoinsSettled k Rejected) sys = Some sys'
    /\ error (state sys') = Some fetch_error_message
    /\ dataSource (state sys') = dataSource (state sys)
    /\ (error_message (state sys') = Some fetch_error_message
        <-> coins (state sys) = [])
    /\ (coins (state sys) <> [] -> error_message (state sys') = None)
    /\ (forall st : State, error_message st <> None -> coins st = []).
Proof.
  intros P. eexists. split; [apply settle_coins; exact P|].
  simpl. unfold error_message, dataSource. simpl.
  split; [reflexivity|]. split; [reflexivity|]. split; [|split].
  - destruct (coins (state sys)); simpl; split; try reflexivity; discriminate.
  - destruct (coins (state sys)); simpl; [intros N; contradiction N|]; reflexivity.
  - intros st. destruct (coins st); simpl; [reflexivity|].
    intros N; contradiction N; reflexivity.
Qed.

Lemma failure_keeps_rows_witness :
  exists sys',
    settle (CoinsSettled 1 Rejected) rows_held = Some sys'
    /\ error (state sys') = Some fetch_error_message
    /\ dataSource (state sys') = usd_rows
    /\ (error_message (state sys') = Some fetch_error_message
        <-> usd_rows = [])
    /\ (usd_rows <> [] -> error_message (state sys') = None)
    /\ (forall st : State, error_message st <> None -> coins st = []).
Proof.
  apply (failure_keeps_rows rows_held 1).
  simpl. auto.
Defined.

(* ================================================================== *)
(** ** The query descriptor *)

(** C2, as the claim states it, fails.  The search term is empty at the
    first render, and the descriptor of the first call has the key [ids],
    holding the empty string; so has the descriptor of the call made after
    the search is cleared. *)
Lemma empty_search_is_sent :
  searchString initial = ""
  /\ issued mount = [params initial]
  /\ param "ids" (params initial) = Some (PString "")
  /\ param "ids" (params initial) <> None
  /\ param "ids" (params (handleClearSearch (setSearchString "bitcoin" initial)))
     = Some (PString "").
Proof.
  repeat split. discriminate.
Qed.

(** C2, amended.  Every descriptor carries the search parameter [ids], and
    its value is the search term; when the search term is empty (at the
    start, after Clear, after a search that matches no entry) the parameter
    is present with the empty string as its value. *)
Theorem ids_always_present `{Runtime} (st : State) :
  param "ids" (params st) = Some (PString (searchString st))
  /\ param "ids" (params initial) = Some (PString "")
  /\ param "ids" (params (handleClearSearch st)) = Some (PString "")
  /\ ((forall c, In c (allCoins st) -> ~ same_name (searchInput st) c) ->
      param "ids" (params (handleSearch st)) = Some (PString "")).
Proof.
  repeat split. intros none. simpl.
  pose proof (find_first
    (fun coin => toLowerCase (AllCoins.name coin) =? toLowerCase (searchInput st))
    (allCoins st)) as F.
  destruct (find _ (allCoins st)) as [c|]; [|reflexivity].
  destruct F as (before & after & E & M & _). exfalso.
  apply (none c).
  - rewrite E. apply in_elt.
  - apply String.eqb_eq. exact M.
Qed.

Lemma ids_always_present_witness :
  param "ids" (params (@handleSearch latin1 (setSearchInput "dogecoin" loaded)))
  = Some (PString "").
Proof.
  apply (@ids_always_present latin1 (setSearchInput "dogecoin" loaded)).
  intros c [<- | [<- | [<- | []]]]; discriminate.
Defined.

(** C3, as the claim states it, fails.  At the first render the sort order
    is [market_cap_desc]; given [volume_desc], which is not a value of the
    select, the handler does not leave the sort order as it is: it stores
    [market_cap_asc], and the call that follows asks for that order. *)
Lemma out_of_enum_sort_order_is_coerced :
  ~ In "volume_desc" sort_orders
  /\ sortOrder (state mount) = "market_cap_desc"
  /\ sortOrder (state (act (H := latin1) (SortOrderChange "volume_desc") mount))
     = "market_cap_asc"
  /\ sortOrder (state (act (H := latin1) (SortOrderChange "volume_desc") mount))
     <> sortOrder (state mount)
  /\ option_map (param "order")
       (latest (act (H := latin1) (SortOrderChange "volume_desc") mount))
     = Some (Some (PString "market_cap_asc")).
Proof.
  split; [intros [E | [E | []]]; discriminate E|].
  split; [reflexivity|]. split; [reflexivity|].
  split; [discriminate | reflexivity].
Qed.

(** C3, amended.  [setSortOrder] stores [market_cap_desc] when given it and
    [market_cap_asc] when given anything else.  So a value outside the select
    turns the sort order into [market_cap_asc]: the sort order stays what it
    was exactly when it was [market_cap_asc] already.  The sort order is
    always one of the two values of the select, in the state before and after
    the change and in every descriptor sent, the one the change may cause
    included. *)
Theorem sort_order_coerced_into_enum `{Runtime}
  (sys : System) (value : string) :
  reachable sys ->
  (value = "market_cap_desc" ->
   sortOrder (handleSortOrderChange value (state sys)) = "market_cap_desc")
  /\ (value <> "market_cap_desc" ->
      sortOrder (handleSortOrderChange value (state sys)) = "market_cap_asc")
  /\ (~ In value sort_orders ->
      (sortOrder (handleSortOrderChange value (state sys)) = sortOrder (state sys)
       <-> sortOrder (state sys) = "market_cap_asc"))
  /\ In (sortOrder (handleSortOrderChange value (state sys))) sort_orders
  /\ In (sortOrder (state sys)) sort_orders
  /\ Forall (fun d => exists o,
               param "order" d = Some (PString o) /\ In o sort_orders)
            (issued (act (SortOrderChange value) sys)).
Proof.
  intros R.
  assert (R' : reachable (act (SortOrderChange value) sys)).
  { apply (reachable_step (User (SortOrderChange value)) sys); [exact R | reflexivity]. }
  apply reachable_invariant in R. destruct R as (I & _ & _).
  apply reachable_invariant in R'. destruct R' as (_ & _ & F).
  assert (A : value <> "market_cap_desc" ->
              sortOrder (handleSortOrderChange value (state sys)) = "market_cap_asc").
  { intros N. simpl. apply String.eqb_neq in N. rewrite N. reflexivity. }
  split; [intros ->; reflexivity|]. split; [exact A|].
  split; [|split; [|split; [exact I|]]].
  - intros N. rewrite A.
    + split; intros E; symmetry; exact E.
    + intros ->. apply N. left. reflexivity.
  - simpl. destruct (value =? "market_cap_desc"); simpl; auto.
  - apply (Forall_impl _ (P := well_formed)); [|exact F].
    intros d (st & -> & Io). exists (sortOrder st). split; [reflexivity | exact Io].
Qed.

Lemma sort_order_coerced_into_enum_witness :
  sortOrder (handleSortOrderChange "market_cap_desc" (state mount))
  = "market_cap_desc"
  /\ sortOrder (handleSortOrderChange "volume_desc" (state mount))
     = "market_cap_asc"
  /\ (sortOrder (handleSortOrderChange "volume_desc" (state mount))
      = sortOrder (state mount)
      <-> sortOrder (state mount) = "market_cap_asc")
  /\ Forall (fun d => exists o,
               param "order" d = Some (PString o) /\ In o sort_orders)
            (issued (act (H := latin1) (SortOrderChange "volume_desc") mount)).
Proof.
  split.
  - apply (proj1 (@sort_order_coerced_into_enum latin1 mount "market_cap_desc"
                    (@reachable_mount latin1))).
    reflexivity.
  - destruct (@sort_order_coerced_into_enum latin1 mount "volume_desc"
                (@reachable_mount latin1)) as (_ & A & B & _ & _ & F).
    split; [apply A; discriminate|].
    split; [apply B; intros [E | [E | []]]; discriminate E | exact F].
Defined.

(** The currency handler, for the record: it stores and sends what it is
    given. *)
Example currency_is_not_checked :
  currency (state (act (H := latin1) (CurrencyChange "GBP") mount)) = "GBP"
  /\ option_map (param "vs_currency")
       (latest (act (H := latin1) (CurrencyChange "GBP") mount))
     = Some (Some (PString "GBP")).
Proof. split; reflexivity. Qed.

(** C5.  The pagination handler sets the page number and the page size
    together: after [setPage(page, size)] both hold, and the call the change
    causes, if any, is a single one whose descriptor has both new values. *)
Theorem page_and_size_change_together `{Runtime}
  (sys : System) (page size : Z) :
  let sys' := act (TableChange (mkPagination (Some page) (Some size))) sys in
  currentPage (state sys') = page
  /\ perPage (state sys') = size
  /\ exists new,
       issued sys' = issued sys ++ new
       /\ (List.length new <= 1)%nat
       /\ Forall (fun d => param "page" d = Some (PNumber page)
                           /\ param "per_page" d = Some (PNumber size)) new.
Proof.
  intros sys'. subst sys'. unfold act. rewrite issued_useEffect.
  unfold useEffect. simpl.
  destruct (same_deps _ _); simpl.
  - split; [reflexivity|]. split; [reflexivity|].
    exists []. split; [reflexivity|]. split; [simpl; lia | constructor].
  - split; [reflexivity|]. split; [reflexivity|].
    eexists. split; [reflexivity|]. split; [simpl; lia|].
    constructor; [split; reflexivity | constructor].
Qed.

(** [setPage(3, 20)] at the first render: one more call, for page 3 of
    size 20. *)
Example setPage_3_20 :
  issued (act (H := latin1) (TableChange (mkPagination (Some 3%Z) (Some 20%Z))) mount)
  = [ params initial;
      [ ("vs_currency", PString "USD"); ("order", PString "market_cap_desc");
        ("per_page", PNumber 20); ("page", PNumber 3);
        ("sparkline", PBoolean false); ("ids", PString "") ] ].
Proof. reflexivity. Qed.

Lemma setCurrency_same (st : State) : setCurrency (currency st) st = st.
Proof. destruct st; reflexivity. Qed.

Lemma setSortOrder_same (st : State) : setSortOrder (sortOrder st) st = st.
Proof. destruct st; reflexivity. Qed.

Lemma handleTableChange_same (st : State) :
  handleTableChange (mkPagination (Some (currentPage st)) (Some (perPage st))) st
  = st.
Proof. destruct st; reflexivity. Qed.

Lemma act_same_deps `{Runtime} (a : Action) (sys : System) :
  deps (handle a (state sys)) = deps (state sys) ->
  act a sys = with_state (handle a (state sys)) sys.
Proof. intros E. apply useEffect_same. symmetry. exact E. Qed.

(** C6.  In a system the component can be in, a setter called with the
    value the state already has starts no call: currency, sort order and
    page leave the system as it is; a search that resolves to the current
    search term, and a Clear when the term is already empty, add nothing to
    the calls made.  The comparison React makes on the dependency array is a
    comparison of descriptors: an action adds no call exactly when the
    descriptor after it is the descriptor of the call made last. *)
Theorem same_value_dispatches_nothing `{Runtime} (sys : System) :
  reachable sys ->
  act (CurrencyChange (currency (state sys))) sys = sys
  /\ act (SortOrderChange (sortOrder (state sys))) sys = sys
  /\ act (TableChange (mkPagination (Some (currentPage (state sys)))
                                    (Some (perPage (state sys))))) sys = sys
  /\ (searchString (handleSearch (state sys)) = searchString (state sys) ->
      issued (act Search sys) = issued sys)
  /\ (searchString (state sys) = "" ->
      issued (act ClearSearch sys) = issued sys)
  /\ (forall a : Action,
        issued (act a sys) = issued sys
        <-> Some (params (state (act a sys))) = latest sys).
Proof.
  intros R. apply reachable_invariant in R. destruct R as (I & L & _).
  split; [|split; [|split; [|split; [|split]]]].
  - rewrite act_same_deps; simpl.
    + unfold handleCurrencyChange. rewrite setCurrency_same. apply with_state_same.
    + reflexivity.
  - assert (E : handleSortOrderChange (sortOrder (state sys)) (state sys) = state sys).
    { unfold handleSortOrderChange.
      assert (C : forall s, In s sort_orders ->
                (if s =? "market_cap_desc" then "market_cap_desc"
                 else "market_cap_asc") = s).
      { intros s [<- | [<- | []]]; reflexivity. }
      rewrite (C _ I). apply setSortOrder_same. }
    rewrite act_same_deps; simpl; rewrite E; [apply with_state_same | reflexivity].
  - rewrite act_same_deps; simpl.
    + rewrite handleTableChange_same. apply with_state_same.
    + reflexivity.
  - intros E. rewrite act_same_deps; [reflexivity|].
    simpl. unfold deps. simpl in E |- *. rewrite E. reflexivity.
  - intros E. rewrite act_same_deps; [reflexivity|].
    simpl. unfold deps. simpl. rewrite E. reflexivity.
  - intros a. unfold act. rewrite issued_useEffect. unfold useEffect. simpl.
    rewrite L.
    destruct (same_deps (state sys) (handle a (state sys))) eqn:E; simpl.
    + apply same_deps_params in E. rewrite E, app_nil_r. tauto.
    + split.
      * intros A. apply (f_equal (@List.length Params)) in A.
        rewrite length_app in A. simpl in A. lia.
      * intros A. exfalso.
        assert (E' : same_deps (state sys) (handle a (state sys)) = true).
        { apply same_deps_true. unfold deps.
          injection A as A1 A2 A3 A4 A5. congruence. }
        congruence.
Qed.

Lemma same_value_dispatches_nothing_witness :
  act (H := latin1) (CurrencyChange "USD") mount = mount
  /\ act (H := latin1) (SortOrderChange "market_cap_desc") mount = mount
  /\ act (H := latin1) (TableChange (mkPagination (Some 1%Z) (Some 10%Z))) mount
     = mount
  /\ issued (act (H := latin1) Search mount) = issued mount
  /\ issued (act (H := latin1) ClearSearch mount) = issued mount.
Proof.
  destruct (@same_value_dispatches_nothing latin1 mount (@reachable_mount latin1))
    as (A & B & C & D & E & _).
  split; [exact A|]. split; [exact B|]. split; [exact C|].
  split; [apply D; reflexivity | apply E; reflexivity].
Defined.

(* ================================================================== *)
(** ** The coin list: search and suggestions *)

(** C7.  Search looks the typed string up in the loaded coin list by
    display name, up to case.  When some entry has that name, the identifier
    of the first such entry becomes the search term; when none has, the
    search term becomes the empty string, which is how the state says that
    there is no filter.  One of the two is always the case, and the error is
    left as it was. *)
Theorem search_takes_first_exact_name `{Runtime} (st : State) :
  (forall before c after,
      allCoins st = before ++ c :: after ->
      same_name (searchInput st) c ->
      (forall d, In d before -> ~ same_name (searchInput st) d) ->
      searchString (handleSearch st) = AllCoins.id c)
  /\ ((forall c, In c (allCoins st) -> ~ same_name (searchInput st) c) ->
      searchString (handleSearch st) = "")
  /\ ((exists before c after,
          allCoins st = before ++ c :: after
          /\ same_name (searchInput st) c
          /\ forall d, In d before -> ~ same_name (searchInput st) d)
      \/ (forall c, In c (allCoins st) -> ~ same_name (searchInput st) c))
  /\ error (handleSearch st) = error st
  /\ (forall sys : System, error (state (act Search sys)) = error (state sys)).
Proof.
  set (test := fun coin =>
         toLowerCase (AllCoins.name coin) =? toLowerCase (searchInput st)).
  assert (T : forall c, test c = true <-> same_name (searchInput st) c).
  { intros c. unfold test, same_name. apply String.eqb_eq. }
  assert (Tf : forall c, test c = false -> ~ same_name (searchInput st) c).
  { intros c F S. apply T in S. congruence. }
  split; [|split; [|split; [|split]]].
  - intros before c after E M N. unfold handleSearch. fold test. rewrite E.
    rewrite find_unique_first; [reflexivity | apply T; exact M |].
    intros y Hy. destruct (test y) eqn:Y; [|reflexivity].
    exfalso. apply (N y Hy). apply T. exact Y.
  - intros N. unfold handleSearch. fold test.
    pose proof (find_first test (allCoins st)) as F.
    destruct (find test (allCoins st)) as [c|]; [|reflexivity].
    destruct F as (before & after & E & M & _). exfalso.
    apply (N c); [rewrite E; apply in_elt | apply T; exact M].
  - pose proof (find_first test (allCoins st)) as F.
    destruct (find test (allCoins st)) as [c|].
    + left. destruct F as (before & after & E & M & B).
      exists before, c, after. split; [exact E|]. split; [apply T; exact M|].
      intros d Hd. apply Tf. exact (B d Hd).
    + right. intros c Hc. apply Tf. exact (F c Hc).
  - reflexivity.
  - intros sys. unfold act, useEffect.
    destruct (same_deps _ _); reflexivity.
Qed.

Lemma search_takes_first_exact_name_witness :
  searchString (@handleSearch latin1 (setSearchInput "BITCOIN cash" loaded))
  = "bitcoin-cash"
  /\ searchString (@handleSearch latin1 (setSearchInput "Bit" loaded)) = "".
Proof.
  split.
  - apply (proj1 (@search_takes_first_exact_name latin1
                      (setSearchInput "BITCOIN cash" loaded))
             [AllCoins.mk "bitcoin" "btc" "Bitcoin";
              AllCoins.mk "ethereum" "eth" "Ethereum"]
             (AllCoins.mk "bitcoin-cash" "bch" "Bitcoin Cash") []).
    + reflexivity.
    + reflexivity.
    + intros d [<- | [<- | []]]; discriminate.
  - apply (@search_takes_first_exact_name latin1 (setSearchInput "Bit" loaded)).
    intros c [<- | [<- | [<- | []]]]; discriminate.
Defined.

(** C8, as the claim states it, fails.  The coin list has an entry whose
    name starts with a space; for the prefix made of one space the lookup
    suggests nothing, though the name of the entry starts with it. *)
Lemma blank_prefix_suggests_nothing :
  allCoins spaced = [AllCoins.mk "x" "x" " x"]
  /\ @name_starts_with latin1 " " (AllCoins.mk "x" "x" " x")
  /\ filteredOptions (@handleInputChange latin1 " " spaced) = [].
Proof.
  split; [reflexivity|]. split; [|reflexivity].
  exists "x". reflexivity.
Qed.

(** C8, amended.  For a prefix with a character that is not white space,
    the suggestions are exactly the entries of the coin list whose display
    name starts with the prefix, up to case, in the order of the list.  For
    the empty prefix, and for a prefix of white space only, there are no
    suggestions. *)
Theorem suggestions_by_prefix `{Runtime} (value : string) (st : State) :
  (blank value = false ->
   exists keep,
     filteredOptions (handleInputChange value st) = filter keep (allCoins st)
     /\ (forall c, keep c = true <-> name_starts_with value c)
     /\ (forall c, In c (filteredOptions (handleInputChange value st))
                   <-> In c (allCoins st) /\ name_starts_with value c))
  /\ (blank value = true -> filteredOptions (handleInputChange value st) = [])
  /\ filteredOptions (handleInputChange "" st) = [].
Proof.
  unfold handleInputChange. rewrite truthy_trim.
  split; [|split].
  - intros B. rewrite B. simpl.
    exists (fun coin =>
              startsWith (toLowerCase (AllCoins.name coin)) (toLowerCase value)).
    split; [reflexivity|]. split.
    + intros c. apply startsWith_spec.
    + intros c. rewrite filter_In. apply and_iff_compat_l, startsWith_spec.
  - intros B. rewrite B. reflexivity.
  - reflexivity.
Qed.

Lemma suggestions_by_prefix_witness :
  (forall c, In c (filteredOptions (@handleInputChange latin1 "Bit" loaded))
             <-> In c catalog /\ @name_starts_with latin1 "Bit" c)
  /\ filteredOptions (@handleInputChange latin1 "   " loaded) = [].
Proof.
  split.
  - destruct (@suggestions_by_prefix latin1 "Bit" loaded) as (P & _ & _).
    destruct (P eq_refl) as (keep & _ & _ & M). exact M.
  - apply (proj1 (proj2 (@suggestions_by_prefix latin1 "   " loaded))).
    reflexivity.
Defined.

(* ================================================================== *)
(** ** The percentage column *)

(** C9, as the claim states it, fails.  A record without the percentage
    renders as the red down arrow and [NaN], not as zero, which renders as
    the green up arrow and [0.00]. *)
Lemma missing_percentage_is_not_zero :
  @render_price_change_percentage_24h latin1 (row "Bitcoin" Missing)
  = mkCell "red" Down "NaN"
  /\ @render_price_change_percentage_24h latin1 (row "Bitcoin" (Num (Finite 0)))
     = mkCell "green" Up "0.00"
  /\ @render_price_change_percentage_24h latin1 (row "Bitcoin" Missing)
     <> @render_price_change_percentage_24h latin1 (row "Bitcoin" (Num (Finite 0))).
Proof.
  split; [reflexivity|]. split; [reflexivity|]. discriminate.
Qed.

(** C9, amended.  The percentage column does not fail on a record without
    the percentage, but it does not show zero either: it shows the red down
    arrow and [NaN].  A record whose percentage is [null] shows what a
    record whose percentage is zero shows, the green up arrow and [0.00].
    What the column shows depends on the percentage alone: two records with
    the same percentage show the same. *)
Theorem missing_percentage_renders_NaN `{Runtime} (record : Coin.t) :
  (Coin.price_change_percentage_24h record = Missing ->
   render_price_change_percentage_24h record = mkCell "red" Down "NaN")
  /\ (Coin.price_change_percentage_24h record = Null ->
      render_price_change_percentage_24h record = mkCell "green" Up "0.00")
  /\ (Coin.price_change_percentage_24h record = Num (Finite 0) ->
      render_price_change_percentage_24h record = mkCell "green" Up "0.00")
  /\ (forall other : Coin.t,
        Coin.price_change_percentage_24h other
        = Coin.price_change_percentage_24h record ->
        render_price_change_percentage_24h other
        = render_price_change_percentage_24h record).
Proof.
  unfold render_price_change_percentage_24h.
  split; [|split; [|split]].
  - intros ->. reflexivity.
  - intros ->. reflexivity.
  - intros ->. reflexivity.
  - intros other ->. reflexivity.
Qed.

Lemma missing_percentage_renders_NaN_witness :
  @render_price_change_percentage_24h latin1 (row "Bitcoin" Missing)
  = mkCell "red" Down "NaN"
  /\ @render_price_change_percentage_24h latin1 (row "Bitcoin" Null)
     = mkCell "green" Up "0.00"
  /\ @render_price_change_percentage_24h latin1 (row "Bitcoin" (Num (Finite 0)))
     = mkCell "green" Up "0.00"
  /\ @render_price_change_percentage_24h latin1
       (Coin.mk "Ethereum" Null Null "" (Num (Finite 5)) Missing)
     = @render_price_change_percentage_24h latin1 (row "Bitcoin" Missing).
Proof.
  split; [|split; [|split]].
  - apply (proj1 (@missing_percentage_renders_NaN latin1 (row "Bitcoin" Missing))).
    reflexivity.
  - apply (proj1 (proj2
             (@missing_percentage_renders_NaN latin1 (row "Bitcoin" Null)))).
    reflexivity.
  - apply (proj1 (proj2 (proj2
             (@missing_percentage_renders_NaN latin1
                (row "Bitcoin" (Num (Finite 0))))))).
    reflexivity.
  - apply (proj2 (proj2 (proj2
             (@missing_percentage_renders_NaN latin1 (row "Bitcoin" Missing))))).
    reflexivity.
Defined.

(* ================================================================== *)
(** ** More on the component: frames, invariants, compositions *)

(** What no handler touches. *)
Lemma handle_frame `{Runtime} (a : Action) (st : State) :
  coins (handle a st) = coins st
  /\ error (handle a st) = error st
  /\ loading (handle a st) = loading st
  /\ allCoins (handle a st) = allCoins st.
Proof.
  destruct a; simpl; try (repeat split; reflexivity).
  unfold handleInputChange. destruct (truthy (trim value)); repeat split; reflexivity.
Qed.

(** What the effect leaves alone: all but the spinner and the calls. *)
Lemma useEffect_frame (prev : State) (sys : System) :
  coins (state (useEffect prev sys)) = coins (state sys)
  /\ error (state (useEffect prev sys)) = error (state sys)
  /\ allCoins (state (useEffect prev sys)) = allCoins (state sys)
  /\ filteredOptions (state (useEffect prev sys)) = filteredOptions (state sys)
  /\ searchInput (state (useEffect prev sys)) = searchInput (state sys)
  /\ params (state (useEffect prev sys)) = params (state sys)
  /\ catalog_pending (useEffect prev sys) = catalog_pending sys.
Proof.
  unfold useEffect. destruct (same_deps prev (state sys)); repeat split; reflexivity.
Qed.

Lemma settle_frame (s : Settlement) (sys sys' : System) :
  settle s sys = Some sys' ->
  issued sys' = issued sys
  /\ params (state sys') = params (state sys)
  /\ searchInput (state sys') = searchInput (state sys)
  /\ filteredOptions (state sys') = filteredOptions (state sys).
Proof.
  destruct s as [k o | data | ]; simpl.
  - destruct (mem k (pending sys)); [|discriminate]. intros S. injection S as <-.
    rewrite useEffect_same; [destruct o; repeat split; reflexivity|].
    destruct o; reflexivity.
  - destruct (catalog_pending sys); [|discriminate]. intros S. injection S as <-.
    rewrite useEffect_same; repeat split; reflexivity.
  - destruct (catalog_pending sys); [|discriminate]. intros S. injection S as <-.
    repeat split; reflexivity.
Qed.

(** X1.  When every markets call has settled the spinner is off: in no
    system the component can be in is [loading] true with nothing
    pending. *)
Theorem spinner_off_when_idle `{Runtime} (sys : System) :
  reachable sys -> pending sys = [] -> loading (state sys) = false.
Proof.
  induction 1 as [| e sys sys' R IH S]; [discriminate|].
  destruct e as [a | [k o | data | ]]; simpl in S.
  - injection S as <-. unfold act, useEffect.
    destruct (handle_frame a (state sys)) as (_ & _ & L & _).
    destruct (same_deps (state sys) (state (with_state (handle a (state sys)) sys))).
    + intros P. change (loading (handle a (state sys)) = false).
      rewrite L. exact (IH P).
    + intros P. simpl in P. destruct (pending sys); discriminate P.
  - destruct (mem k (pending sys)); [|discriminate S]. injection S as <-.
    rewrite useEffect_same; [|destruct o; reflexivity].
    intros _. destruct o; reflexivity.
  - destruct (catalog_pending sys); [|discriminate S]. injection S as <-.
    rewrite useEffect_same; [|reflexivity]. exact IH.
  - destruct (catalog_pending sys); [|discriminate S]. injection S as <-.
    exact IH.
Qed.

Lemma spinner_off_when_idle_witness :
  loading (state (mkSystem (fetchCoins_fulfilled usd_rows (state mount))
                           (issued mount) [] true)) = false.
Proof.
  apply (@spinner_off_when_idle latin1).
  - apply (@reachable_step latin1 (Network (CoinsSettled 0 (Fulfilled usd_rows)))
             mount); [apply reachable_mount | reflexivity].
  - reflexivity.
Defined.

(** X2.  The call made last is always the call for the filters on screen:
    its descriptor is the projection of the current state.  Every
    descriptor sent has the same six keys, in the same order, with
    [sparkline] false; and at least one call has been made. *)
Theorem last_call_matches_filters `{Runtime} (sys : System) :
  reachable sys ->
  latest sys = Some (params (state sys))
  /\ issued sys <> []
  /\ Forall (fun d =>
               keys d = ["vs_currency"; "order"; "per_page"; "page";
                         "sparkline"; "ids"]
               /\ param "sparkline" d = Some (PBoolean false))
            (issued sys).
Proof.
  intros R. apply reachable_invariant in R. destruct R as (_ & L & F).
  split; [exact L|]. split.
  - intros E. unfold latest in L. rewrite E in L. discriminate L.
  - apply (Forall_impl _ (P := well_formed)); [|exact F].
    intros d (st & -> & _). split; reflexivity.
Qed.

Lemma last_call_matches_filters_witness :
  latest two_in_flight = Some (params (state two_in_flight))
  /\ issued two_in_flight <> []
  /\ Forall (fun d =>
               keys d = ["vs_currency"; "order"; "per_page"; "page";
                         "sparkline"; "ids"]
               /\ param "sparkline" d = Some (PBoolean false))
            (issued two_in_flight).
Proof.
  apply (@last_call_matches_filters latin1 two_in_flight).
  apply (@reachable_step latin1 (User (CurrencyChange "EUR")) mount);
    [apply reachable_mount | reflexivity].
Defined.

(** X3.  An answer of the network never starts a call and never changes a
    filter: after a markets call or the call on the coin list settles, the
    calls made, the descriptor of the state, the text typed and the
    suggestions are what they were. *)
Theorem responses_start_no_call (s : Settlement) (sys sys' : System) :
  settle s sys = Some sys' ->
  issued sys' = issued sys
  /\ params (state sys') = params (state sys)
  /\ searchInput (state sys') = searchInput (state sys)
  /\ filteredOptions (state sys') = filteredOptions (state sys).
Proof. exact (settle_frame s sys sys'). Qed.

Lemma responses_start_no_call_witness :
  issued newer_answered = issued two_in_flight
  /\ params (state newer_answered) = params (state two_in_flight)
  /\ searchInput (state newer_answered) = searchInput (state two_in_flight)
  /\ filteredOptions (state newer_answered) = filteredOptions (state two_in_flight).
Proof.
  apply (responses_start_no_call (CoinsSettled 1 (Fulfilled eur_rows))
           two_in_flight newer_answered).
  reflexivity.
Defined.

(** X4.  The rows change only when a markets call succeeds, and the error
    only when a markets call settles: no user action and no answer of the
    coin list touches either, so the rows of the previous query and the
    message under an empty table stay on screen while a new call is in
    flight. *)
Theorem rows_and_error_change_only_on_settlement `{Runtime}
  (e : Event) (sys sys' : System) :
  step e sys = Some sys' ->
  (coins (state sys') <> coins (state sys) ->
   exists k data, e = Network (CoinsSettled k (Fulfilled data)))
  /\ (error (state sys') <> error (state sys) ->
      exists k o, e = Network (CoinsSettled k o))
  /\ (error_message (state sys') <> error_message (state sys) ->
      exists k o, e = Network (CoinsSettled k o)).
Proof.
  intros S.
  assert (K : (forall k o, e <> Network (CoinsSettled k o)) ->
              coins (state sys') = coins (state sys)
              /\ error (state sys') = error (state sys)).
  { intros N. destruct e as [a | [k o | data | ]]; simpl in S.
    - injection S as <-. unfold act.
      destruct (useEffect_frame (state sys) (with_state (handle a (state sys)) sys))
        as (C & E & _).
      destruct (handle_frame a (state sys)) as (C' & E' & _).
      simpl in C, E. split; congruence.
    - exfalso. exact (N k o eq_refl).
    - destruct (catalog_pending sys); [|discriminate S]. injection S as <-.
      rewrite useEffect_same; [split; reflexivity | reflexivity].
    - destruct (catalog_pending sys); [|discriminate S]. injection S as <-.
      split; reflexivity. }
  destruct e as [a | [k o | data | ]].
  1, 3, 4: destruct K as (C & E); [intros k o; discriminate|];
    (split; [intros N; contradiction N
            | split; [intros N; contradiction N
                     | intros N; exfalso; apply N;
                       unfold error_message; rewrite C, E; reflexivity]]).
  split; [|split; intros _; exists k, o; reflexivity].
  intros N. destruct o as [data|]; [exists k, data; reflexivity|].
  exfalso. apply N. simpl in S.
  destruct (mem k (pending sys)); [|discriminate S]. injection S as <-.
  rewrite useEffect_same; reflexivity.
Qed.

Lemma rows_and_error_change_only_on_settlement_witness :
  (coins (state newer_answered) <> coins (state two_in_flight) ->
   exists k data,
     Network (CoinsSettled 1 (Fulfilled eur_rows))
     = Network (CoinsSettled k (Fulfilled data)))
  /\ (error (state newer_answered) <> error (state two_in_flight) ->
      exists k o, Network (CoinsSettled 1 (Fulfilled eur_rows))
                  = Network (CoinsSettled k o))
  /\ (error_message (state newer_answered) <> error_message (state two_in_flight) ->
      exists k o, Network (CoinsSettled 1 (Fulfilled eur_rows))
                  = Network (CoinsSettled k o)).
Proof.
  apply (@rows_and_error_change_only_on_settlement latin1
           (Network (CoinsSettled 1 (Fulfilled eur_rows)))
           two_in_flight newer_answered).
  reflexivity.
Defined.

Lemma params_state_act `{Runtime} (a : Action) (sys : System) :
  params (state (act a sys)) = params (handle a (state sys)).
Proof.
  unfold act.
  destruct (useEffect_frame (state sys) (with_state (handle a (state sys)) sys))
    as (_ & _ & _ & _ & _ & P & _).
  exact P.
Qed.

Lemma act_changed `{Runtime} (a : Action) (sys : System) :
  params (state (act a sys)) <> params (state sys) ->
  act a sys = fetchCoins (with_state (handle a (state sys)) sys).
Proof.
  rewrite params_state_act. intros N. unfold act, useEffect.
  destruct (same_deps (state sys) (state (with_state (handle a (state sys)) sys)))
    eqn:E; [|reflexivity].
  apply same_deps_params in E. simpl in E. congruence.
Qed.

(** X5.  Typing in the search box starts no call and changes nothing of the
    query: only the text and the suggestions change. *)
Theorem typing_starts_no_call `{Runtime} (value : string) (sys : System) :
  issued (act (InputChange value) sys) = issued sys
  /\ pending (act (InputChange value) sys) = pending sys
  /\ params (state (act (InputChange value) sys)) = params (state sys)
  /\ loading (state (act (InputChange value) sys)) = loading (state sys)
  /\ searchInput (state (act (InputChange value) sys)) = value.
Proof.
  assert (D : deps (handle (InputChange value) (state sys)) = deps (state sys)).
  { simpl. unfold handleInputChange. destruct (truthy (trim value)); reflexivity. }
  rewrite (act_same_deps _ _ D). simpl. unfold handleInputChange.
  destruct (truthy (trim value)); repeat split; reflexivity.
Qed.

Lemma filter_change_starts_one_call_aux `{Runtime} (a : Action) (sys : System) :
  params (state (act a sys)) <> params (state sys) ->
  issued (act a sys) = issued sys ++ [params (state (act a sys))].
Proof. intros N. rewrite (act_changed a sys N). reflexivity. Qed.

(** X6.  A user action that changes the descriptor starts exactly one call:
    the call for the new descriptor, numbered after the calls made so far,
    with the spinner turned on. *)
Theorem filter_change_starts_one_call `{Runtime} (a : Action) (sys : System) :
  params (state (act a sys)) <> params (state sys) ->
  issued (act a sys) = issued sys ++ [params (state (act a sys))]
  /\ pending (act a sys) = pending sys ++ [List.length (issued sys)]
  /\ loading (state (act a sys)) = true.
Proof.
  intros N. rewrite (act_changed a sys N). repeat split.
Qed.

Lemma filter_change_starts_one_call_witness :
  issued two_in_flight = issued mount ++ [params (state two_in_flight)]
  /\ pending two_in_flight = pending mount ++ [List.length (issued mount)]
  /\ loading (state two_in_flight) = true.
Proof.
  apply (@filter_change_starts_one_call latin1 (CurrencyChange "EUR") mount).
  discriminate.
Defined.

(** X7.  Nothing is cached: a change away from a descriptor and a change
    back to it make two calls, the second for the descriptor the component
    started from. *)
Theorem there_and_back_fetches_twice `{Runtime} (a b : Action) (sys : System) :
  params (state (act a sys)) <> params (state sys) ->
  params (state (act b (act a sys))) = params (state sys) ->
  issued (act b (act a sys))
  = issued sys ++ [params (state (act a sys)); params (state sys)].
Proof.
  intros N B.
  assert (N' : params (state (act b (act a sys))) <> params (state (act a sys)))
    by congruence.
  rewrite (filter_change_starts_one_call_aux b (act a sys) N').
  rewrite (filter_change_starts_one_call_aux a sys N).
  rewrite B, <- app_assoc. reflexivity.
Qed.

Lemma there_and_back_fetches_twice_witness :
  issued (act (H := latin1) (CurrencyChange "USD") two_in_flight)
  = issued mount ++ [params (state two_in_flight); params (state mount)].
Proof.
  apply (@there_and_back_fetches_twice latin1
           (CurrencyChange "EUR") (CurrencyChange "USD") mount).
  - discriminate.
  - reflexivity.
Defined.

(* ------------------------------------------------------------------ *)
(** *** The coin list over time *)

Lemma filteredOptions_handle `{Runtime} (a : Action) (st : State) :
  incl (filteredOptions st) (allCoins st) ->
  incl (filteredOptions (handle a st)) (allCoins st).
Proof.
  intros I. destruct a; simpl; try exact I.
  - intros x [].
  - unfold handleInputChange. destruct (truthy (trim value)); simpl.
    + apply incl_filter.
    + intros x [].
Qed.

Lemma catalog_invariant `{Runtime} (sys : System) :
  reachable sys ->
  (catalog_pending sys = true -> allCoins (state sys) = [])
  /\ incl (filteredOptions (state sys)) (allCoins (state sys)).
Proof.
  induction 1 as [| e sys sys' R [IH1 IH2] S].
  - split; [reflexivity | intros x []].
  - destruct e as [a | [k o | data | ]]; simpl in S.
    + injection S as <-. unfold act.
      destruct (useEffect_frame (state sys) (with_state (handle a (state sys)) sys))
        as (_ & _ & A & F & _ & _ & C).
      destruct (handle_frame a (state sys)) as (_ & _ & _ & A').
      rewrite A, F, C. simpl. rewrite A'. split; [exact IH1|].
      apply filteredOptions_handle. exact IH2.
    + destruct (mem k (pending sys)); [|discriminate S]. injection S as <-.
      rewrite useEffect_same; [|destruct o; reflexivity].
      destruct o; split; assumption.
    + destruct (catalog_pending sys); [|discriminate S]. injection S as <-.
      rewrite useEffect_same; [|reflexivity]. simpl.
      split; [discriminate|].
      rewrite (IH1 eq_refl) in IH2. intros x Hx. destruct (IH2 x Hx).
    + destruct (catalog_pending sys); [|discriminate S]. injection S as <-.
      split; [discriminate | exact IH2].
Qed.

Lemma step_allCoins `{Runtime} (e : Event) (sys sys' : System) :
  step e sys = Some sys' ->
  (forall data, e <> Network (AllCoinsFulfilled data)) ->
  allCoins (state sys') = allCoins (state sys)
  /\ (catalog_pending sys = false -> catalog_pending sys' = false).
Proof.
  intros S N. destruct e as [a | [k o | data | ]]; simpl in S.
  - injection S as <-. unfold act.
    destruct (useEffect_frame (state sys) (with_state (handle a (state sys)) sys))
      as (_ & _ & A & _ & _ & _ & C).
    destruct (handle_frame a (state sys)) as (_ & _ & _ & A').
    rewrite A, C. simpl. split; [exact A' | intros E; exact E].
  - destruct (mem k (pending sys)); [|discriminate S]. injection S as <-.
    rewrite useEffect_same; [|destruct o; reflexivity].
    destruct o; split; try reflexivity; intros E; exact E.
  - exfalso. exact (N data eq_refl).
  - destruct (catalog_pending sys); [|discriminate S]. injection S as <-.
    split; reflexivity.
Qed.

Lemma run_catalog_settled `{Runtime} (es : list Event) (sys sys' : System) :
  catalog_pending sys = false ->
  run es sys = Some sys' ->
  allCoins (state sys') = allCoins (state sys) /\ catalog_pending sys' = false.
Proof.
  revert sys. induction es as [|e es IH]; intros sys C S; simpl in S.
  - injection S as <-. split; [reflexivity | exact C].
  - destruct (step e sys) as [sys1|] eqn:E; [|discriminate S].
    assert (N : forall data, e <> Network (AllCoinsFulfilled data)).
    { intros data ->. simpl in E. rewrite C in E. discriminate E. }
    destruct (step_allCoins e sys sys1 E N) as (A & C1).
    destruct (IH sys1 (C1 C) S) as (A' & C'). split; [congruence | exact C'].
Qed.

Lemma run_without_catalog `{Runtime} (es : list Event) (sys sys' : System) :
  catalog_pending sys = false ->
  run es sys = Some sys' ->
  Forall (fun e => forall s, e = Network s -> exists k o, s = CoinsSettled k o) es.
Proof.
  revert sys. induction es as [|e es IH]; intros sys C S; simpl in S.
  - constructor.
  - destruct (step e sys) as [sys1|] eqn:E; [|discriminate S].
    assert (N : forall data, e <> Network (AllCoinsFulfilled data)).
    { intros data ->. simpl in E. rewrite C in E. discriminate E. }
    destruct (step_allCoins e sys sys1 E N) as (_ & C1).
    constructor; [|exact (IH sys1 (C1 C) S)].
    intros s ->. destruct s as [k o | data | ].
    + exists k, o. reflexivity.
    + exfalso. exact (N data eq_refl).
    + simpl in E. rewrite C in E. discriminate E.
Qed.

(** X8.  The coin list is loaded once.  While its call is pending the list
    is empty; once the call has settled, whatever happens later leaves the
    list as it is, and nothing that happens later is an answer on the coin
    list: the only answers are those of markets calls. *)
Theorem coin_list_loaded_once `{Runtime} (sys : System) :
  reachable sys ->
  (catalog_pending sys = true -> allCoins (state sys) = [])
  /\ (catalog_pending sys = false ->
      forall es sys', run es sys = Some sys' ->
        allCoins (state sys') = allCoins (state sys)
        /\ Forall (fun e => forall s, e = Network s ->
                             exists k o, s = CoinsSettled k o) es).
Proof.
  intros R. split; [apply (catalog_invariant sys R)|].
  intros C es sys' S.
  destruct (run_catalog_settled es sys sys' C S) as (A & _).
  split; [exact A | exact (run_without_catalog es sys sys' C S)].
Qed.

Lemma coin_list_loaded_once_witness :
  allCoins (state mount) = []
  /\ exists sys',
       run (H := latin1) browsing catalog_loaded = Some sys'
       /\ searchString (state sys') = ""
       /\ coins (state sys') = usd_rows
       /\ allCoins (state sys') = catalog.
Proof.
  split.
  - apply (proj1 (@coin_list_loaded_once latin1 mount (@reachable_mount latin1))).
    reflexivity.
  - eexists. split; [reflexivity|]. split; [reflexivity|]. split; [reflexivity|].
    assert (R : @reachable latin1 catalog_loaded).
    { apply (@reachable_step latin1 (Network (AllCoinsFulfilled catalog)) mount);
        [apply reachable_mount | reflexivity]. }
    apply (proj2 (@coin_list_loaded_once latin1 catalog_loaded R)
             eq_refl browsing _ eq_refl).
Defined.

(** X9.  When the call on the coin list fails, the search box is dead for
    the rest of the session: the list stays empty, so Search gives the empty
    search term whatever is typed, and no text typed has a suggestion. *)
Theorem failed_coin_list_disables_search `{Runtime}
  (sys sys' : System) (es : list Event) :
  reachable sys ->
  catalog_pending sys = true ->
  run (Network AllCoinsRejected :: es) sys = Some sys' ->
  allCoins (state sys') = []
  /\ searchString (handleSearch (state sys')) = ""
  /\ (forall value,
        filteredOptions (handleInputChange value (state sys')) = []
        /\ options (handleInputChange value (state sys')) = []).
Proof.
  intros R C S. simpl in S. rewrite C in S.
  destruct (run_catalog_settled es
              (mkSystem (state sys) (issued sys) (pending sys) false) sys'
              eq_refl S) as (A & _).
  simpl in A.
  destruct (catalog_invariant sys R) as (E & _). rewrite (E C) in A.
  split; [exact A|]. unfold handleSearch, handleInputChange, options.
  rewrite A. simpl. split; [reflexivity|].
  intros value. destruct (truthy (trim value)); split; reflexivity.
Qed.

Lemma failed_coin_list_disables_search_witness :
  exists sys',
    run (H := latin1)
      [Network AllCoinsRejected; User (InputChange "Bit"); User Search] mount
    = Some sys'
    /\ allCoins (state sys') = []
    /\ searchString (@handleSearch latin1 (state sys')) = "".
Proof.
  eexists. split; [reflexivity|].
  destruct (@failed_coin_list_disables_search latin1 mount _
              [User (InputChange "Bit"); User Search]
              (@reachable_mount latin1) eq_refl eq_refl) as (A & B & _).
  split; [exact A | exact B].
Defined.

(** X10.  A suggestion always resolves.  In a system the component can be
    in, every option offered is the name of an entry of the coin list; and
    when that text is in the search box, Search sets the search term to the
    identifier of the first entry of the list that has that name, up to
    case, which need not be the entry the option came from. *)
Theorem suggestion_resolves `{Runtime} (sys : System) (option : string) :
  reachable sys ->
  In option (options (state sys)) ->
  (exists c, In c (allCoins (state sys)) /\ AllCoins.name c = option)
  /\ exists before d after,
       allCoins (state sys) = before ++ d :: after
       /\ same_name option d
       /\ (forall x, In x before -> ~ same_name option x)
       /\ searchString (handleSearch (handleInputChange option (state sys)))
          = AllCoins.id d.
Proof.
  intros R O. destruct (catalog_invariant sys R) as (_ & I).
  unfold options in O. apply in_map_iff in O. destruct O as (c & <- & Hc).
  apply I in Hc. split; [exists c; split; [exact Hc | reflexivity]|].
  set (st := handleInputChange (AllCoins.name c) (state sys)).
  assert (A : allCoins st = allCoins (state sys)
              /\ searchInput st = AllCoins.name c).
  { unfold st, handleInputChange.
    destruct (truthy (trim (AllCoins.name c))); split; reflexivity. }
  destruct A as (A & T).
  pose proof (find_first
    (fun coin => toLowerCase (AllCoins.name coin) =? toLowerCase (searchInput st))
    (allCoins st)) as F.
  unfold handleSearch.
  destruct (find _ (allCoins st)) as [d|].
  - destruct F as (before & after & E & M & B). exists before, d, after. simpl.
    split; [rewrite <- A; exact E|].
    split; [unfold same_name; rewrite <- T; apply String.eqb_eq; exact M|].
    split; [|reflexivity].
    intros x Hx S. unfold same_name in S. rewrite <- T in S.
    apply String.eqb_eq in S. rewrite (B x Hx) in S. discriminate S.
  - exfalso. rewrite A in F. specialize (F c Hc). simpl in F.
    rewrite T, String.eqb_refl in F. discriminate F.
Qed.

Lemma suggestion_resolves_witness :
  exists before d after,
    allCoins (state suggesting) = before ++ d :: after
    /\ @same_name latin1 "Bitcoin Cash" d
    /\ (forall x, In x before -> ~ @same_name latin1 "Bitcoin Cash" x)
    /\ searchString
         (@handleSearch latin1
            (@handleInputChange latin1 "Bitcoin Cash" (state suggesting)))
       = AllCoins.id d.
Proof.
  apply (proj2 (@suggestion_resolves latin1 suggesting "Bitcoin Cash"
    (@reachable_step latin1 (User (InputChange "bit")) catalog_loaded suggesting
       (@reachable_step latin1 (Network (AllCoinsFulfilled catalog)) mount
          catalog_loaded (@reachable_mount latin1) eq_refl)
       eq_refl)
    (or_intror (or_introl eq_refl)))).
Defined.

(* ------------------------------------------------------------------ *)
(** *** The handlers, one against the other *)

(** X11.  The pagination handler takes what the table gives it and keeps
    what the table leaves out: with neither property it changes nothing and
    starts no call; with the page alone the page size stays; with the page
    size alone the page number stays, it is not reset to the first page.
    Neither number is checked against anything. *)
Theorem pagination_keeps_missing_fields `{Runtime}
  (sys : System) (page size : Z) :
  act (TableChange (mkPagination None None)) sys = sys
  /\ currentPage (state (act (TableChange (mkPagination (Some page) None)) sys))
     = page
  /\ perPage (state (act (TableChange (mkPagination (Some page) None)) sys))
     = perPage (state sys)
  /\ currentPage (state (act (TableChange (mkPagination None (Some size))) sys))
     = currentPage (state sys)
  /\ perPage (state (act (TableChange (mkPagination None (Some size))) sys))
     = size.
Proof.
  split.
  - assert (E : handleTableChange (mkPagination None None) (state sys) = state sys)
      by (destruct (state sys); reflexivity).
    rewrite act_same_deps; simpl; rewrite E; [apply with_state_same | reflexivity].
  - unfold act, useEffect.
    repeat match goal with
           | |- context [same_deps ?a ?b] => destruct (same_deps a b)
           end; repeat split; reflexivity.
Qed.

(** X12.  Every handler changes the filters it is named after and no other:
    the currency changes only by the currency select, the sort order only by
    its select, the page and the page size only by the table, the search
    term only by Search and Clear.  So a new search, currency or sort order
    leaves the page number where it is. *)
Theorem handlers_touch_their_own_filter `{Runtime} (a : Action) (st : State) :
  (currency (handle a st) <> currency st -> exists v, a = CurrencyChange v)
  /\ (sortOrder (handle a st) <> sortOrder st -> exists v, a = SortOrderChange v)
  /\ (currentPage (handle a st) <> currentPage st \/ perPage (handle a st) <> perPage st ->
      exists p, a = TableChange p)
  /\ (searchString (handle a st) <> searchString st -> a = Search \/ a = ClearSearch).
Proof.
  assert (I : forall v, handleInputChange v st
                        = setFilteredOptions (filteredOptions (handleInputChange v st))
                            (setSearchInput v st)).
  { intros v. unfold handleInputChange. destruct (truthy (trim v)); reflexivity. }
  destruct a; simpl; try rewrite I; simpl;
    (split; [|split; [|split]]);
    try (intros N; exfalso; apply N; reflexivity);
    try (intros [N | N]; exfalso; apply N; reflexivity);
    eauto.
Qed.

Lemma handlers_touch_their_own_filter_witness :
  exists v, CurrencyChange "EUR" = CurrencyChange v.
Proof.
  apply (@handlers_touch_their_own_filter latin1 (CurrencyChange "EUR") initial).
  discriminate.
Defined.

(** X13.  The only message the component ever shows is the fixed text of
    [fetchCoins], and it shows it over an empty table only. *)
Theorem only_the_fixed_message `{Runtime} (sys : System) (m : string) :
  reachable sys ->
  error_message (state sys) = Some m ->
  m = fetch_error_message /\ coins (state sys) = [] /\ dataSource (state sys) = [].
Proof.
  intros R.
  assert (E : error (state sys) = None \/ error (state sys) = Some fetch_error_message).
  { induction R as [| e sys sys' R IH S]; [left; reflexivity|].
    destruct e as [a | [k o | data | ]]; simpl in S.
    - injection S as <-. unfold act.
      destruct (useEffect_frame (state sys) (with_state (handle a (state sys)) sys))
        as (_ & E & _).
      destruct (handle_frame a (state sys)) as (_ & E' & _).
      rewrite E. simpl. rewrite E'. exact IH.
    - destruct (mem k (pending sys)); [|discriminate S]. injection S as <-.
      rewrite useEffect_same; [|destruct o; reflexivity].
      destruct o; [left | right]; reflexivity.
    - destruct (catalog_pending sys); [|discriminate S]. injection S as <-.
      rewrite useEffect_same; [exact IH | reflexivity].
    - destruct (catalog_pending sys); [|discriminate S]. injection S as <-.
      exact IH. }
  unfold error_message, dataSource.
  destruct (coins (state sys)); simpl; [|discriminate].
  destruct E as [-> | ->]; [discriminate|].
  simpl. intros M. injection M as <-. repeat split.
Qed.

Lemma only_the_fixed_message_witness :
  fetch_error_message = fetch_error_message
  /\ coins (fetchCoins_rejected (state mount)) = []
  /\ dataSource (fetchCoins_rejected (state mount)) = [].
Proof.
  apply (@only_the_fixed_message latin1
           (mkSystem (fetchCoins_rejected (state mount)) (issued mount) [] true)
           fetch_error_message).
  - apply (@reachable_step latin1 (Network (CoinsSettled 0 Rejected)) mount);
      [apply reachable_mount | reflexivity].
  - reflexivity.
Defined.

(* ------------------------------------------------------------------ *)
(** *** The percentage column on numbers *)

Lemma Qabs_opp_eq (q : Q) : Qabs (- q) = Qabs q.
Proof. destruct q as [n d]. simpl. rewrite Z.abs_opp. reflexivity. Qed.

(** X14.  On a finite percentage the sign is shown by the arrow alone: the
    arrow is up, and green, exactly when the value is zero or more, and the
    text is that of the magnitude, the same for a value and its opposite.
    On every record the colour and the arrow agree. *)
Theorem sign_is_shown_by_the_arrow `{Runtime} (record : Coin.t) (q : Q) :
  Coin.price_change_percentage_24h record = Num (Finite q) ->
  (arrowIcon (render_price_change_percentage_24h record) = Up <-> (0 <= q)%Q)
  /\ (arrowIcon (render_price_change_percentage_24h record) = Down <-> (q < 0)%Q)
  /\ percent (render_price_change_percentage_24h record)
     = toFixed2 (Finite (Qabs q))
  /\ (forall other : Coin.t,
        Coin.price_change_percentage_24h other = Num (Finite (- q)) ->
        percent (render_price_change_percentage_24h other)
        = percent (render_price_change_percentage_24h record))
  /\ (forall any : Coin.t,
        arrowColor (render_price_change_percentage_24h any) = "green"
        <-> arrowIcon (render_price_change_percentage_24h any) = Up).
Proof.
  intros E. unfold render_price_change_percentage_24h. simpl. rewrite E.
  unfold ge0, Math_abs. simpl.
  split; [|split; [|split; [|split]]].
  - rewrite <- Qle_bool_iff. destruct (Qle_bool 0 q); split; congruence.
  - destruct (Qle_bool 0 q) eqn:B; split; try discriminate; try reflexivity.
    + intros L. apply Qle_bool_iff in B. exfalso. exact (Qlt_not_le _ _ L B).
    + intros _. apply Qnot_le_lt. intros L. apply Qle_bool_iff in L. congruence.
  - reflexivity.
  - intros other E'. rewrite E'.
    change (toFixed2 (Finite (Qabs (- q))) = toFixed2 (Finite (Qabs q))).
    rewrite Qabs_opp_eq. reflexivity.
  - intros any. destruct (ToNumber (Coin.price_change_percentage_24h any)) as [|[]|x];
      simpl; try (split; discriminate); try (split; reflexivity).
    destruct (Qle_bool 0 x); split; try discriminate; reflexivity.
Qed.

Lemma sign_is_shown_by_the_arrow_witness :
  percent (@render_price_change_percentage_24h latin1
             (row "Ethereum" (Num (Finite (-(1 # 4))))))
  = "0.25"
  /\ arrowIcon (@render_price_change_percentage_24h latin1
                  (row "Ethereum" (Num (Finite (-(1 # 4))))))
     = Down.
Proof.
  destruct (@sign_is_shown_by_the_arrow latin1
              (row "Ethereum" (Num (Finite (-(1 # 4))))) (-(1 # 4)) eq_refl)
    as (_ & D & P & _).
  split; [rewrite P; reflexivity | apply D; reflexivity].
Defined.

(* ------------------------------------------------------------------ *)
(** *** The two revisions *)

Lemma same_deps_earlier (a b : State) :
  searchString a = searchString b ->
  same_deps a b = Legacy.same_deps (earlier_state a) (earlier_state b).
Proof.
  intros E. unfold same_deps, Legacy.same_deps. simpl.
  rewrite E, String.eqb_refl. apply andb_true_r.
Qed.

Lemma earlier_useEffect (prev : State) (sys : System) :
  searchString prev = searchString (state sys) ->
  earlier (useEffect prev sys) = Legacy.useEffect (earlier_state prev) (earlier sys).
Proof.
  intros E. unfold useEffect, Legacy.useEffect.
  rewrite (same_deps_earlier _ _ E). simpl.
  destruct (Legacy.same_deps (earlier_state prev) (earlier_state (state sys)));
    [reflexivity|].
  unfold earlier, fetchCoins, Legacy.fetchCoins. simpl.
  rewrite map_app, length_map. reflexivity.
Qed.

Lemma searchString_useEffect (prev : State) (sys : System) :
  searchString (state (useEffect prev sys)) = searchString (state sys).
Proof. unfold useEffect. destruct (same_deps prev (state sys)); reflexivity. Qed.

Lemma earlier_step `{Runtime} (e : Legacy.Event) (sys : System) :
  option_map earlier (step (later e) sys) = Legacy.step e (earlier sys)
  /\ (forall sys', step (later e) sys = Some sys' ->
        searchString (state sys') = searchString (state sys)).
Proof.
  destruct e as [value | value | pagination | k o]; simpl.
  1, 2, 3: split;
    [unfold act; rewrite earlier_useEffect; reflexivity
    | intros sys' S; injection S as <-; unfold act;
      rewrite searchString_useEffect; reflexivity].
  destruct (mem k (pending sys)); simpl; [|split; [reflexivity | discriminate]].
  split.
  - rewrite earlier_useEffect; [|destruct o; reflexivity].
    destruct o; reflexivity.
  - intros sys' S. injection S as <-. rewrite searchString_useEffect.
    destruct o; reflexivity.
Qed.

Lemma earlier_run `{Runtime} (es : list Legacy.Event) (sys : System) :
  option_map earlier (run (map later es) sys) = Legacy.run es (earlier sys).
Proof.
  revert sys. induction es as [|e es IH]; intros sys; simpl; [reflexivity|].
  destruct (earlier_step e sys) as (E & _).
  destruct (step (later e) sys) as [sys1|]; simpl in E; rewrite <- E.
  - apply IH.
  - reflexivity.
Qed.

Lemma later_run_search_empty `{Runtime} (es : list Legacy.Event) (sys0 sys : System) :
  searchString (state sys0) = "" ->
  Forall (fun d => param "ids" d = Some (PString "")) (issued sys0) ->
  run (map later es) sys0 = Some sys ->
  searchString (state sys) = ""
  /\ Forall (fun d => param "ids" d = Some (PString "")) (issued sys).
Proof.
  revert sys0. induction es as [|e es IH]; intros sys0 E F S; simpl in S.
  - injection S as <-. split; assumption.
  - destruct (step (later e) sys0) as [sys1|] eqn:S1; [|discriminate S].
    destruct (earlier_step e sys0) as (_ & K).
    apply (IH sys1); [rewrite (K sys1 S1); exact E | | exact S].
    assert (I : issued sys1 = issued sys0
                \/ issued sys1 = issued sys0 ++ [params (state sys1)]).
    { pose proof S1 as S2.
      destruct e as [value | value | pagination | k o]; simpl in S2.
      1, 2, 3: injection S2 as <-; unfold act, useEffect;
        match goal with
        | |- context [same_deps ?a ?b] => destruct (same_deps a b)
        end; [left | right]; reflexivity.
      destruct (settle_frame (CoinsSettled k o) sys0 sys1 S1) as (I & _).
      left. exact I. }
    destruct I as [-> | ->]; [exact F|].
    apply Forall_app. split; [exact F|].
    constructor; [|constructor]. simpl. rewrite (K sys1 S1), E. reflexivity.
Qed.

Lemma quiet_step `{Runtime} (e : Legacy.Event) (sys sys' : System) :
  quiet e = true ->
  isWellFormedCurrencyCode (currency (state sys)) = true ->
  forallb has_numbers (coins (state sys)) = true ->
  step (later e) sys = Some sys' ->
  isWellFormedCurrencyCode (currency (state sys')) = true
  /\ forallb has_numbers (coins (state sys')) = true.
Proof.
  intros Q W N S.
  destruct e as [value | value | pagination | k o]; simpl in S.
  1, 2, 3: injection S as <-; unfold act, useEffect;
    match goal with
    | |- context [same_deps ?a ?b] => destruct (same_deps a b)
    end; simpl; split; assumption.
  destruct (mem k (pending sys)); [|discriminate S]. injection S as <-.
  rewrite useEffect_same; [|destruct o; reflexivity].
  destruct o as [data|]; simpl; split; assumption.
Qed.

Lemma quiet_run `{Runtime} (es : list Legacy.Event) (sys0 sys : System) :
  Forall (fun e => quiet e = true) es ->
  isWellFormedCurrencyCode (currency (state sys0)) = true ->
  forallb has_numbers (coins (state sys0)) = true ->
  run (map later es) sys0 = Some sys ->
  isWellFormedCurrencyCode (currency (state sys)) = true
  /\ forallb has_numbers (coins (state sys)) = true.
Proof.
  revert sys0. induction es as [|e es IH]; intros sys0 Q W N S; simpl in S.
  - injection S as <-. split; assumption.
  - destruct (step (later e) sys0) as [sys1|] eqn:S1; [|discriminate S].
    inversion Q as [|? ? Qe Qes]; subst.
    destruct (quiet_step e sys0 sys1 Qe W N S1) as (W1 & N1).
    exact (IH sys1 Qes W1 N1 S).
Qed.

(** X15.  As long as no column throws, the revision with the search box
    extends the earlier one.  Take a sequence of events of the earlier
    component (currency, sort order and page changes, markets calls
    settling) in which every currency chosen is a well formed code and every
    row received has a price and a supply.  Started at the first render, the
    later component goes through the same rows, filters, spinner and error,
    makes the same calls but for [ids], which is the empty string in each,
    and has the same calls pending; where the earlier one cannot take an
    event, neither can the later one.  The search term stays empty, and the
    price and supply columns render every row on screen. *)
Theorem later_revision_extends_earlier `{Runtime} `{Locale}
  (es : list Legacy.Event) :
  Forall (fun e => quiet e = true) es ->
  option_map earlier (run (map later es) mount) = Legacy.run es Legacy.mount
  /\ (forall sys, run (map later es) mount = Some sys ->
        searchString (state sys) = ""
        /\ Forall (fun d => param "ids" d = Some (PString "")) (issued sys)
        /\ Forall (fun record =>
                     (exists text, render_current_price (state sys) record = inr text)
                     /\ (exists text, render_circulating_supply record = inr text))
                  (coins (state sys))).
Proof.
  intros Q. split; [exact (earlier_run es mount)|].
  intros sys S.
  assert (F0 : Forall (fun d => param "ids" d = Some (PString "")) (issued mount))
    by (constructor; [reflexivity | constructor]).
  destruct (later_run_search_empty es mount sys eq_refl F0 S) as (E & F).
  split; [exact E|]. split; [exact F|].
  destruct (quiet_run es mount sys Q eq_refl eq_refl S) as (W & N).
  apply Forall_forall. intros record Hr.
  rewrite forallb_forall in N. specialize (N record Hr).
  unfold has_numbers in N. apply andb_true_iff in N. destruct N as (P & C).
  unfold render_current_price, render_circulating_supply, formatCurrency.
  rewrite W.
  destruct (Coin.current_price record); try discriminate P.
  destruct (Coin.circulating_supply record); try discriminate C.
  split; eexists; reflexivity.
Qed.

Lemma later_revision_extends_earlier_witness :
  option_map earlier
    (run (H := latin1)
       (map later [Legacy.CurrencyChange "EUR";
                   Legacy.CoinsSettled 1 (Fulfilled eur_rows)])
       mount)
  = Legacy.run [Legacy.CurrencyChange "EUR";
                Legacy.CoinsSettled 1 (Fulfilled eur_rows)]
      Legacy.mount
  /\ searchString (state newer_answered) = ""
  /\ Forall (fun record =>
               (exists text,
                  @render_current_price plain_locale (state newer_answered) record
                  = inr text)
               /\ (exists text,
                     @render_circulating_supply plain_locale record = inr text))
            (coins (state newer_answered)).
Proof.
  assert (Q : Forall (fun e => quiet e = true)
                [Legacy.CurrencyChange "EUR";
                 Legacy.CoinsSettled 1 (Fulfilled eur_rows)])
    by (repeat constructor).
  destruct (@later_revision_extends_earlier latin1 plain_locale
              [Legacy.CurrencyChange "EUR";
               Legacy.CoinsSettled 1 (Fulfilled eur_rows)] Q)
    as (A & B).
  split; [exact A|].
  destruct (B newer_answered eq_refl) as (E & _ & F).
  split; [exact E | exact F].
Defined.

(* ------------------------------------------------------------------ *)
(** *** The price and supply columns *)

(** X16.  The price column and the supply column need their number.  A row
    whose price is missing or [null] makes the render of the price column
    throw, whatever the currency, and so does a row without supply in the
    supply column.  On a number, the price column succeeds for both
    currencies of the select, and throws for a currency code that is not
    three characters long. *)
Theorem price_and_supply_need_a_number `{Locale}
  (st : State) (record : Coin.t) :
  (Coin.current_price record = Missing \/ Coin.current_price record = Null ->
   render_current_price st record = inl TypeError)
  /\ (Coin.circulating_supply record = Missing
      \/ Coin.circulating_supply record = Null ->
      render_circulating_supply record = inl TypeError)
  /\ (forall x, Coin.current_price record = Num x ->
        (In (currency st) currencies ->
         render_current_price st record = inr (currencyFormat x (currency st)))
        /\ (String.length (currency st) <> 3%nat ->
            render_current_price st record = inl RangeError)).
Proof.
  unfold render_current_price, render_circulating_supply, formatCurrency.
  split; [|split].
  - intros [-> | ->]; reflexivity.
  - intros [-> | ->]; reflexivity.
  - intros x ->. split.
    + intros [<- | [<- | []]]; reflexivity.
    + intros N. destruct (currency st) as [|a [|b [|c [|d rest]]]];
        try reflexivity. exfalso. apply N. reflexivity.
Qed.

Lemma price_and_supply_need_a_number_witness :
  @render_current_price plain_locale initial
    (Coin.mk "Bitcoin" Null (Num (Finite 1)) "" Null Null)
  = inl TypeError
  /\ @render_current_price plain_locale (setCurrency "" initial)
       (row "Bitcoin" Null)
     = inl RangeError.
Proof.
  split.
  - apply (@price_and_supply_need_a_number plain_locale initial
             (Coin.mk "Bitcoin" Null (Num (Finite 1)) "" Null Null)).
    right. reflexivity.
  - apply (proj2 (proj2 (proj2
             (@price_and_supply_need_a_number plain_locale
                (setCurrency "" initial) (row "Bitcoin" Null)))
             (Finite 1) eq_refl)).
    discriminate.
Defined.
